(** * kindle-clips: a shallow embedding of [kindle_clips.py]

    The development follows the layout of the Python module:

    - [PyStr]    : the [str] methods the module calls ([removesuffix],
                   [startswith], [join], [lower], [upper], [int], [str]);
    - [Re]       : the fragment of [re.search] the four patterns need, as a
                   backtracking matcher with capture groups;
    - [Datetime] : [datetime.date] and [datetime.time] with their range
                   checks and their [str] rendering;
    - [Json]     : the values [json.dumps] receives and its [indent=4]
                   rendering;
    - the module's own dataclasses and functions, under their own names;
    - [ReSpec], [Shape], [Group], [Field] : the vocabulary of the
                   statements (what a match is, lines that end in a time,
                   groups of five lines, fields and records of any input).

    The properties come last: the matcher is sound and complete for the
    declarative reading of the patterns ([ReFacts]), which gives the
    groups of the time and date patterns ([TimeFacts], [DateFacts]); the
    loop over the lines is cut into groups of five ([LoopFacts]).  The
    further properties cover the rest of the module: the kind prefixes,
    page, location and date extraction on the lines the device writes,
    what every extraction satisfies, the formatters, the messages and the
    selection of the clips to print.

    Modelling choices.
    - A Python [str] is a [string]; a character is a code point below 256.
      On that range the [IGNORECASE] flag only identifies the ASCII letters
      with their other case.
    - Python integers are [Z].
    - An exception is a value of [exn]; a function that can raise returns in
      [result].  Arguments are evaluated left to right, as Python does.
    - The file object of [parse_rawclips_file] is the list of lines its
      iteration yields (each line with its line feed, except possibly the
      last one).  [parse_rawclips_file] is the function on a file that
      opens and is read to its end; [parse_rawclips_file_io] adds what the
      file system can do: [open] can raise, and so can the iteration,
      after any number of lines, when the bytes do not decode.
    - [int] raises [ValueError] on a digit string of more than
      [max_str_digits] digits, the limit of the interpreter; [decimal] is
      the value it returns otherwise.  The integers of a clip come from
      [int], so they have at most [max_str_digits] digits
      ([parse_page_info_cases], [parse_location_info_cases]): [str]
      returns on them, and [str_int] is its value. *)

From Stdlib Require Import List String Ascii ZArith Lia Bool Arith.
From Stdlib Require Import DecimalString HexadecimalString NArith.
Import ListNotations.

Local Open Scope string_scope.
Local Open Scope list_scope.

Set Implicit Arguments.

(** ** Exceptions *)

Inductive exn : Type :=
| KeyError
| ValueError
| IndexError
| TypeError
| AttributeError
| OSError
| UnicodeDecodeError.

Inductive result (A : Type) : Type :=
| Ok (a : A)
| Raise (e : exn).

Arguments Ok {A} a.
Arguments Raise {A} e.

Definition bind {A B : Type} (m : result A) (f : A -> result B) : result B :=
  match m with
  | Ok a => f a
  | Raise e => Raise e
  end.

Notation "x <- m ;; k" := (bind m (fun x => k))
  (at level 61, m at next level, right associativity).

(** ** The [str] methods *)

Module PyStr.

Definition chars (s : string) : list ascii := list_ascii_of_string s.
Definition of_chars (l : list ascii) : string := string_of_list_ascii l.

Definition is_upper (c : ascii) : bool :=
  let n := nat_of_ascii c in (65 <=? n)%nat && (n <=? 90)%nat.

Definition is_lower (c : ascii) : bool :=
  let n := nat_of_ascii c in (97 <=? n)%nat && (n <=? 122)%nat.

Definition lower_char (c : ascii) : ascii :=
  if is_upper c then ascii_of_nat (nat_of_ascii c + 32) else c.

Definition upper_char (c : ascii) : ascii :=
  if is_lower c then ascii_of_nat (nat_of_ascii c - 32) else c.

(** [s.lower()] and [s.upper()] on ASCII letters. *)
Definition lower (l : list ascii) : list ascii := map lower_char l.
Definition upper (l : list ascii) : list ascii := map upper_char l.

(** [s.capitalize()]: first character upper case, the rest lower case. *)
Definition capitalize (s : string) : string :=
  match s with
  | EmptyString => EmptyString
  | String c s' => String (upper_char c) (of_chars (lower (chars s')))
  end.

(** [s.startswith(p)]. *)
Definition startswith (s p : string) : bool := String.prefix p s.

(** [s.removesuffix(suf)]: drops one occurrence of a non-empty [suf] at the
    end of [s], and returns [s] otherwise. *)
Fixpoint removesuffix (s suf : string) : string :=
  if String.eqb s suf then
    match suf with
    | EmptyString => s
    | _ => EmptyString
    end
  else
    match s with
    | EmptyString => EmptyString
    | String c s' => String c (removesuffix s' suf)
    end.

(** [sep.join(l)]. *)
Fixpoint join (sep : string) (l : list string) : string :=
  match l with
  | [] => EmptyString
  | [x] => x
  | x :: l' => x ++ sep ++ join sep l'
  end.

(** [c * n] for a string [c]. *)
Fixpoint repeat_str (c : string) (n : nat) : string :=
  match n with
  | O => EmptyString
  | S n' => c ++ repeat_str c n'
  end.

(** The value of a string of decimal digits, most significant first. *)
Definition digit_val (c : ascii) : Z := (Z.of_nat (nat_of_ascii c) - 48)%Z.

Definition decimal (l : list ascii) : Z :=
  fold_left (fun acc c => (10 * acc + digit_val c)%Z) l 0%Z.

(** The interpreter's limit on the number of digits [int] and [str]
    convert, at its default, [sys.int_info.default_max_str_digits]. *)
Definition max_str_digits : Z := 4300.

(** [int(s)] on a string of decimal digits: [ValueError] beyond the limit
    (leading zeros count). *)
Definition int (l : list ascii) : result Z :=
  if (max_str_digits <? Z.of_nat (List.length l))%Z then Raise ValueError
  else Ok (decimal l).

(** [str(n)] for an integer of at most [max_str_digits] digits: its
    decimal form.  (Beyond the limit [str] raises [ValueError]; no integer
    the parser builds goes there.) *)
Definition str_int (n : Z) : string :=
  DecimalString.NilZero.string_of_int (Z.to_int n).

(** ["{:0wd}"]-style zero padding of a non-negative integer to width [w]. *)
Definition zfill (w : nat) (n : Z) : string :=
  let s := str_int n in
  repeat_str "0" (w - String.length s) ++ s.

End PyStr.

(** ** The fragment of [re] used by the module *)

Module Re.

Import PyStr.

(** A character class: one character, a range [[lo-hi]] or a set [[abc]]. *)
Inductive cls : Type :=
| CChar (c : ascii)
| CRange (lo hi : ascii)
| CSet (cs : list ascii).

(** Patterns.  A quantifier is only ever applied to a character class in the
    module's patterns, so [RRep] takes a class: [c{mn,mx}], greedy, with
    [mx = None] for an unbounded repetition. *)
Inductive regex : Type :=
| REps
| RCls (c : cls)
| RRep (c : cls) (mn : nat) (mx : option nat)
| RSeq (r1 r2 : regex)
| RAlt (r1 r2 : regex)
| RGroup (n : nat) (r : regex)
| REnd.

Definition cls_mem (c : cls) (a : ascii) : bool :=
  match c with
  | CChar b => Ascii.eqb a b
  | CRange lo hi =>
      (nat_of_ascii lo <=? nat_of_ascii a)%nat
      && (nat_of_ascii a <=? nat_of_ascii hi)%nat
  | CSet cs => existsb (Ascii.eqb a) cs
  end.

(** Membership under [IGNORECASE]: a character matches when one of its case
    variants is in the class. *)
Definition cls_match (c : cls) (a : ascii) : bool :=
  cls_mem c a || cls_mem c (lower_char a) || cls_mem c (upper_char a).

(** Capture groups, numbered from 1; [None] for a group that did not take
    part in the match. *)
Definition captures : Type := list (option (list ascii)).

Fixpoint set_group (n : nat) (v : list ascii) (g : captures) : captures :=
  match n, g with
  | _, [] => []
  | O, x :: g' => x :: g'
  | S O, _ :: g' => Some v :: g'
  | S n', x :: g' => x :: set_group n' v g'
  end.

Definition group (n : nat) (g : captures) : option (list ascii) :=
  match n with
  | O => None
  | S n' => nth n' g None
  end.

(** The text between two positions of the subject, both given as the suffix
    that starts there. *)
Definition consumed (s s' : list ascii) : list ascii :=
  firstn (List.length s - List.length s') s.

Definition more (mx : option nat) : bool :=
  match mx with
  | Some O => false
  | _ => true
  end.

Section Matcher.

Variable A : Type.

(** Greedy repetition of a class: take a character while the bound allows,
    and fall back to stopping here when the rest does not match. *)
Fixpoint rrep (c : cls) (mn : nat) (mx : option nat) (s : list ascii)
         (k : list ascii -> option A) {struct s} : option A :=
  let stop := match mn with O => k s | S _ => None end in
  match s with
  | [] => stop
  | a :: s' =>
      if more mx && cls_match c a then
        match rrep c (pred mn) (option_map pred mx) s' k with
        | Some r => Some r
        | None => stop
        end
      else stop
  end.

End Matcher.

(** The backtracking matcher, in continuation-passing style: [k] is what is
    left of the pattern.  Alternatives are tried in order, [$] holds at the
    end of the subject and before a line feed that ends it. *)
Fixpoint rmatch (A : Type) (r : regex) (s : list ascii) (g : captures)
         (k : list ascii -> captures -> option A) : option A :=
  match r with
  | REps => k s g
  | RCls c =>
      match s with
      | a :: s' => if cls_match c a then k s' g else None
      | [] => None
      end
  | RRep c mn mx => rrep c mn mx s (fun s' => k s' g)
  | RSeq r1 r2 => rmatch r1 s g (fun s1 g1 => rmatch r2 s1 g1 k)
  | RAlt r1 r2 =>
      match rmatch r1 s g k with
      | Some x => Some x
      | None => rmatch r2 s g k
      end
  | RGroup n r1 =>
      rmatch r1 s g (fun s' g' => k s' (set_group n (consumed s s') g'))
  | REnd =>
      match s with
      | [] => k s g
      | [a] => if Ascii.eqb a "010"%char then k s g else None
      | _ => None
      end
  end.

(** One attempt at a given start position. *)
Definition match_here (ngroups : nat) (r : regex) (s : list ascii)
  : option captures :=
  rmatch r s (repeat None ngroups) (fun _ g => Some g).

(** [re.search]: the first start position, from the left, with a match. *)
Fixpoint search_from (ngroups : nat) (r : regex) (s : list ascii)
  : option captures :=
  match match_here ngroups r s with
  | Some g => Some g
  | None =>
      match s with
      | [] => None
      | _ :: s' => search_from ngroups r s'
      end
  end.

Definition search (ngroups : nat) (r : regex) (s : string) : option captures :=
  search_from ngroups r (chars s).

(** Pattern combinators. *)
Fixpoint lit (l : list ascii) : regex :=
  match l with
  | [] => REps
  | [a] => RCls (CChar a)
  | a :: l' => RSeq (RCls (CChar a)) (lit l')
  end.

Definition text (s : string) : regex := lit (chars s).

Fixpoint seq (rs : list regex) : regex :=
  match rs with
  | [] => REps
  | [r] => r
  | r :: rs' => RSeq r (seq rs')
  end.

Definition digit : cls := CRange "0" "9".
Definition letter : cls := CRange "a" "z".
Definition plus (c : cls) : regex := RRep c 1 None.
Definition opt (c : cls) : regex := RRep c 0 (Some 1).
Definition between (c : cls) (mn mx : nat) : regex := RRep c mn (Some mx).

End Re.

(** ** [datetime.date] and [datetime.time] *)

Module Datetime.

Import PyStr.
Local Open Scope Z_scope.

Record date : Type := Date { year : Z; month : Z; day : Z }.

(** [datetime.time]; the module never sets microseconds or a time zone. *)
Record time : Type := Time { hour : Z; minute : Z; second : Z }.

Definition is_leap (y : Z) : bool :=
  (y mod 4 =? 0) && (negb (y mod 100 =? 0) || (y mod 400 =? 0)).

Definition days_in_month (y m : Z) : Z :=
  if m =? 2 then (if is_leap y then 29 else 28)
  else if (m =? 4) || (m =? 6) || (m =? 9) || (m =? 11) then 30
  else 31.

(** The constructor [date(year, month, day)]: [ValueError] outside
    1..9999, 1..12 and 1..days of the month. *)
Definition mk_date (y m d : Z) : result date :=
  if (1 <=? y) && (y <=? 9999) && (1 <=? m) && (m <=? 12)
     && (1 <=? d) && (d <=? days_in_month y m)
  then Ok (Date y m d)
  else Raise ValueError.

(** The constructor [time(hour, minute, second)]: [ValueError] outside
    0..23, 0..59 and 0..59. *)
Definition mk_time (h m s : Z) : result time :=
  if (0 <=? h) && (h <=? 23) && (0 <=? m) && (m <=? 59)
     && (0 <=? s) && (s <=? 59)
  then Ok (Time h m s)
  else Raise ValueError.

(** [str(d)]: the ISO form [YYYY-MM-DD]. *)
Definition str_date (d : date) : string :=
  (zfill 4 (year d) ++ "-" ++ zfill 2 (month d) ++ "-" ++ zfill 2 (day d))%string.

(** [str(t)]: the ISO form [HH:MM:SS]. *)
Definition str_time (t : time) : string :=
  (zfill 2 (hour t) ++ ":" ++ zfill 2 (minute t) ++ ":" ++ zfill 2 (second t))%string.

(** [str] of an optional value: [str(None)] is the text [None]. *)
Definition str_option {A : Type} (f : A -> string) (o : option A) : string :=
  match o with
  | Some a => f a
  | None => "None"
  end.

End Datetime.

(** ** [json.dumps] *)

Module Json.

Import PyStr.
Local Open Scope string_scope.

#[warnings="-register-all"]
Inductive json : Type :=
| JStr (s : string)
| JInt (n : Z)
| JList (l : list json)
| JObj (fields : list (string * json)).

Definition LF : string := String "010" EmptyString.
Definition QUOTE : string := String "034" EmptyString.
Definition BACKSLASH : string := String "092" EmptyString.

Definition hex_digit (n : nat) : ascii :=
  if (n <? 10)%nat then ascii_of_nat (48 + n) else ascii_of_nat (87 + n).

(** The escapes of [ensure_ascii=True]. *)
Definition escape_char (c : ascii) : string :=
  let n := nat_of_ascii c in
  if (n =? 34)%nat then BACKSLASH ++ QUOTE
  else if (n =? 92)%nat then BACKSLASH ++ BACKSLASH
  else if (n =? 10)%nat then BACKSLASH ++ "n"
  else if (n =? 13)%nat then BACKSLASH ++ "r"
  else if (n =? 9)%nat then BACKSLASH ++ "t"
  else if (n =? 8)%nat then BACKSLASH ++ "b"
  else if (n =? 12)%nat then BACKSLASH ++ "f"
  else if (32 <=? n)%nat && (n <=? 126)%nat then String c EmptyString
  else BACKSLASH ++ "u00"
       ++ String (hex_digit (n / 16)) (String (hex_digit (n mod 16)) EmptyString).

Definition encode_str (s : string) : string :=
  QUOTE ++ String.concat EmptyString (map escape_char (chars s)) ++ QUOTE.

Definition newline_indent (indent level : nat) : string :=
  LF ++ repeat_str " " (indent * level).

(** The rendering with a positive [indent]: one item per line, items
    separated by a comma, a key and its value by a colon and a space. *)
Fixpoint dumps_at (indent level : nat) (j : json) {struct j} : string :=
  match j with
  | JStr s => encode_str s
  | JInt n => str_int n
  | JList [] => "[]"
  | JList l =>
      "[" ++ newline_indent indent (S level)
      ++ join ("," ++ newline_indent indent (S level))
              (map (dumps_at indent (S level)) l)
      ++ newline_indent indent level ++ "]"
  | JObj [] => "{}"
  | JObj fields =>
      "{" ++ newline_indent indent (S level)
      ++ join ("," ++ newline_indent indent (S level))
              (map (fun kv => let '(key, v) := kv in
                              encode_str key ++ ": " ++ dumps_at indent (S level) v)
                   fields)
      ++ newline_indent indent level ++ "}"
  end.

Definition dumps (j : json) (indent : nat) : string := dumps_at indent 0 j.

(** The items of an object, in insertion order. *)
Definition fields (j : json) : list (string * json) :=
  match j with
  | JObj fs => fs
  | _ => []
  end.

(** [d[key]] on an object. *)
Fixpoint get (key : string) (fields : list (string * json)) : option json :=
  match fields with
  | [] => None
  | (k, v) :: fields' => if String.eqb k key then Some v else get key fields'
  end.

End Json.

(** ** Classes *)

Import PyStr Re.

Module RawClip.
Record t : Type := mk {
  source : string;
  info : string;
  blank : string;
  content : string;
  delimiter : string
}.
End RawClip.

Module Clip.
Record t : Type := mk {
  type : string;
  source : string;
  page : list Z;
  location : list Z;
  date : option Datetime.date;
  time : option Datetime.time;
  content : string
}.
End Clip.

Module Extraction.
Record t : Type := mk {
  highlights : list Clip.t;
  notes : list Clip.t;
  bookmarks : list Clip.t;
  unparsed : list (RawClip.t * Z)
}.
End Extraction.

(** ** Clips parsing *)

Definition LF : string := Json.LF.

(** [get_rawclip_type]. *)
Definition get_rawclip_type (rclip : RawClip.t) : string :=
  if startswith (RawClip.info rclip) "- Your Highlight" then "highlight"
  else if startswith (RawClip.info rclip) "- Your Note" then "note"
  else if startswith (RawClip.info rclip) "- Your Bookmark" then "bookmark"
  else "unparsed".

(** [[int(x) for x in match.groups() if x is not None]]: the groups are
    converted in order, and the first [int] that raises ends the
    comprehension. *)
Fixpoint ints_of_groups (g : captures) : result (list Z) :=
  match g with
  | [] => Ok []
  | None :: g' => ints_of_groups g'
  | Some p :: g' =>
      n <- int p ;;
      l <- ints_of_groups g' ;;
      Ok (n :: l)
  end.

(** [pages? ([0-9]+)-([0-9]+)|page ([0-9]+)] *)
Definition page_re : regex :=
  RAlt (seq [text "page"; opt (CChar "s"); text " ";
             RGroup 1 (plus digit); text "-"; RGroup 2 (plus digit)])
       (seq [text "page "; RGroup 3 (plus digit)]).

Definition parse_page_info (s : string) : result (list Z) :=
  match search 3 page_re s with
  | None => Ok []
  | Some g => ints_of_groups g
  end.

(** [Location ([0-9]+)-([0-9]+)|Location ([0-9]+)] *)
Definition location_re : regex :=
  RAlt (seq [text "Location "; RGroup 1 (plus digit); text "-";
             RGroup 2 (plus digit)])
       (seq [text "Location "; RGroup 3 (plus digit)]).

Definition parse_location_info (s : string) : result (list Z) :=
  match search 3 location_re s with
  | None => Ok []
  | Some g => ints_of_groups g
  end.

Definition MONTHS : list (string * Z) :=
  [ ("january", 1); ("february", 2); ("march", 3); ("april", 4);
    ("may", 5); ("june", 6); ("july", 7); ("august", 8);
    ("september", 9); ("october", 10); ("november", 11);
    ("december", 12) ]%Z.

(** [d[key]]: [KeyError] when the key is missing. *)
Fixpoint getitem (d : list (string * Z)) (key : string) : result Z :=
  match d with
  | [] => Raise KeyError
  | (k, v) :: d' => if String.eqb k key then Ok v else getitem d' key
  end.

(** [match.group(n)] where the caller needs a string: a group that took no
    part in the match is [None], on which [int] raises [TypeError] and a
    [str] method [AttributeError]. *)
Definition group_text (e : exn) (n : nat) (g : captures)
  : result (list ascii) :=
  match group n g with
  | Some x => Ok x
  | None => Raise e
  end.

(** [Added on [a-z]+, ([a-z]+) ([0-9]{1,2}), ([0-9]{4})] *)
Definition date_re : regex :=
  seq [text "Added on "; plus letter; text ", "; RGroup 1 (plus letter);
       text " "; RGroup 2 (between digit 1 2); text ", ";
       RGroup 3 (between digit 4 4)].

Definition parse_date_info (s : string) : result (option Datetime.date) :=
  match search 3 date_re s with
  | None => Ok None
  | Some g =>
      y <- group_text TypeError 3 g ;;
      year <- int y ;;
      m <- group_text AttributeError 1 g ;;
      month <- getitem MONTHS (of_chars (lower m)) ;;
      d <- group_text TypeError 2 g ;;
      day <- int d ;;
      v <- Datetime.mk_date year month day ;;
      Ok (Some v)
  end.

(** [([0-9]{1,2}):([0-9]{1,2}):([0-9]{1,2}) ([AMP]+)$] *)
Definition time_re : regex :=
  seq [RGroup 1 (between digit 1 2); text ":"; RGroup 2 (between digit 1 2);
       text ":"; RGroup 3 (between digit 1 2); text " ";
       RGroup 4 (plus (CSet ["A"; "M"; "P"]%char)); REnd].

Definition parse_time_info (s : string) : result (option Datetime.time) :=
  match search 4 time_re s with
  | None => Ok None
  | Some g =>
      h <- group_text TypeError 1 g ;;
      hour <- int h ;;
      m <- group_text TypeError 2 g ;;
      minutes <- int m ;;
      sec <- group_text TypeError 3 g ;;
      seconds <- int sec ;;
      p <- group_text AttributeError 4 g ;;
      let period := of_chars (upper p) in
      let hour :=
        if String.eqb period "PM" && negb (hour =? 12)%Z then (hour + 12)%Z
        else if String.eqb period "AM" && (hour =? 12)%Z then (hour - 12)%Z
        else hour in
      v <- Datetime.mk_time hour minutes seconds ;;
      Ok (Some v)
  end.

(** [parse_rawclip]: the constructor's arguments are evaluated in order. *)
Definition parse_rawclip (rawclip : RawClip.t) : result Clip.t :=
  let type := get_rawclip_type rawclip in
  let source := RawClip.source rawclip in
  page <- parse_page_info (RawClip.info rawclip) ;;
  location <- parse_location_info (RawClip.info rawclip) ;;
  date <- parse_date_info (RawClip.info rawclip) ;;
  time <- parse_time_info (RawClip.info rawclip) ;;
  Ok (Clip.mk type source page location date time (RawClip.content rawclip)).

(** The local variables of [parse_rawclips_file]. *)
Module Locals.
Record t : Type := mk {
  highlights : list Clip.t;
  notes : list Clip.t;
  bookmarks : list Clip.t;
  unparsed : list (RawClip.t * Z);
  current_clip : list string;
  line_cnt : Z;
  cnt : Z
}.

Definition init : t := mk [] [] [] [] [] 0 1.
End Locals.

(** [l[i]]: [IndexError] out of range. *)
Definition item (l : list string) (i : nat) : result string :=
  match nth_error l i with
  | Some x => Ok x
  | None => Raise IndexError
  end.

(** The [match clip.type] statement: the clip (or the raw clip and the line
    counter) is appended to its list. *)
Definition collect (st : Locals.t) (rclip : RawClip.t) (clip : Clip.t)
  : result Locals.t :=
  let '(Locals.mk hs ns bs us cur lc c) := st in
  if String.eqb (Clip.type clip) "highlight" then
    Ok (Locals.mk (hs ++ [clip]) ns bs us cur lc c)
  else if String.eqb (Clip.type clip) "note" then
    Ok (Locals.mk hs (ns ++ [clip]) bs us cur lc c)
  else if String.eqb (Clip.type clip) "bookmark" then
    Ok (Locals.mk hs ns (bs ++ [clip]) us cur lc c)
  else if String.eqb (Clip.type clip) "unparsed" then
    Ok (Locals.mk hs ns bs (us ++ [(rclip, lc)]) cur lc c)
  else Raise ValueError.

(** One iteration of [for line in f]. *)
Definition loop_body (st : Locals.t) (line : string) : result Locals.t :=
  if (5 <=? Locals.cnt st)%Z then
    l0 <- item (Locals.current_clip st) 0 ;;
    l1 <- item (Locals.current_clip st) 1 ;;
    l2 <- item (Locals.current_clip st) 2 ;;
    l3 <- item (Locals.current_clip st) 3 ;;
    let rclip := RawClip.mk l0 l1 l2 l3 (removesuffix line LF) in
    clip <- parse_rawclip rclip ;;
    st' <- collect st rclip clip ;;
    Ok (Locals.mk (Locals.highlights st') (Locals.notes st')
                  (Locals.bookmarks st') (Locals.unparsed st')
                  [] (Locals.line_cnt st' + 1)%Z 1%Z)
  else
    Ok (Locals.mk (Locals.highlights st) (Locals.notes st)
                  (Locals.bookmarks st) (Locals.unparsed st)
                  (Locals.current_clip st ++ [removesuffix line LF])
                  (Locals.line_cnt st + 1)%Z (Locals.cnt st + 1)%Z).

Fixpoint for_lines (f : list string) (st : Locals.t) : result Locals.t :=
  match f with
  | [] => Ok st
  | line :: f' => st' <- loop_body st line ;; for_lines f' st'
  end.

(** [parse_rawclips_file], on the lines the file yields. *)
Definition parse_rawclips_file (f : list string) : result Extraction.t :=
  st <- for_lines f Locals.init ;;
  Ok (Extraction.mk (Locals.highlights st) (Locals.notes st)
                    (Locals.bookmarks st) (Locals.unparsed st)).

(** What [open(file, "r", encoding="utf-8")] and the iteration over the
    file object can do: [open] raises, or the iteration yields lines and
    then ends, at the end of the file or on an error of its own (bytes
    that do not decode, a failed read). *)
Module File.
Inductive t : Type :=
| cannot_open (e : exn)
| opened (lines : list string) (failure : option exn).
End File.

(** [parse_rawclips_file], on what the file system answers.  The body of
    the loop runs on each line as it is yielded, so an error of a record
    comes before an error of the iteration after it. *)
Definition parse_rawclips_file_io (file : File.t) : result Extraction.t :=
  match file with
  | File.cannot_open e => Raise e
  | File.opened lines failure =>
      st <- for_lines lines Locals.init ;;
      match failure with
      | Some e => Raise e
      | None =>
          Ok (Extraction.mk (Locals.highlights st) (Locals.notes st)
                            (Locals.bookmarks st) (Locals.unparsed st))
      end
  end.

(** ** Output formatting and messaging *)

Local Open Scope string_scope.

(** [pages_and_loc_to_str]. *)
Definition pages_and_loc_to_str (pp : option (list Z)) : string :=
  match pp with
  | None => "no data"
  | Some pp =>
      let pp_len := List.length pp in
      if (pp_len =? 0)%nat then "no data"
      else if (pp_len =? 1)%nat then str_int (nth 0 pp 0%Z)
      else if (pp_len =? 2)%nat then
        str_int (nth 0 pp 0%Z) ++ "-" ++ str_int (nth 1 pp 0%Z)
      else
        removesuffix
          (join EmptyString (map (fun i => str_int i ++ ", ") pp)) ", "
  end.

Section Formatters.

(** The address at which the interpreter holds a [str] object.  The text
    form of a bound method shows it; the program does not determine it. *)
Variable id : string -> N.

(** [str(s.capitalize)], the text form of the bound method itself. *)
Definition str_capitalize_method (self : string) : string :=
  "<built-in method capitalize of str object at 0x"
  ++ HexadecimalString.NilZero.string_of_uint (N.to_hex_uint (id self)) ++ ">".

Definition columns : nat := 70.

(** The items joined into one clip's block by [text_formatter]. *)
Definition text_items (delimiter : string) (clip : Clip.t) : list string :=
  [ "Source: " ++ Clip.source clip ++ LF;
    "Page: " ++ pages_and_loc_to_str (Some (Clip.page clip)) ++ LF;
    "Location: " ++ pages_and_loc_to_str (Some (Clip.location clip)) ++ LF;
    "Creation: " ++ Datetime.str_option Datetime.str_date (Clip.date clip)
      ++ " | " ++ Datetime.str_option Datetime.str_time (Clip.time clip) ++ LF;
    str_capitalize_method (Clip.type clip) ++ ":" ++ LF ++ LF;
    Clip.content clip ++ LF;
    delimiter ].

(** [text_formatter]. *)
Definition text_formatter (clips : list Clip.t) : string :=
  let delimiter := repeat_str "-" columns ++ LF in
  let result := map (fun clip => join EmptyString (text_items delimiter clip))
                    clips in
  delimiter ++ join delimiter result ++ delimiter.

(** [org_formatter]. *)
Definition org_formatter (clips : list Clip.t) : string :=
  let delimiter := LF in
  let result :=
    map (fun clip =>
           join LF
             [ "* " ++ Clip.source clip ++ LF;
               "  :PROPERTIES:";
               "  :Source: " ++ Clip.source clip;
               "  :Page: " ++ pages_and_loc_to_str (Some (Clip.page clip));
               "  :Location: "
                 ++ pages_and_loc_to_str (Some (Clip.location clip));
               "  :Date: "
                 ++ Datetime.str_option Datetime.str_date (Clip.date clip);
               "  :Time: "
                 ++ Datetime.str_option Datetime.str_time (Clip.time clip);
               "  :Type: " ++ Clip.type clip ++ ":";
               "  :END:" ++ LF;
               Clip.content clip;
               delimiter ])
        clips in
  delimiter ++ join delimiter result.

(** The dictionary [json_formatter] builds for one clip. *)
Definition json_object (clip : Clip.t) : Json.json :=
  Json.JObj
    [ ("source", Json.JStr (Clip.source clip));
      ("page", Json.JList (map Json.JInt (Clip.page clip)));
      ("location", Json.JList (map Json.JInt (Clip.location clip)));
      ("date", Json.JStr (Datetime.str_option Datetime.str_date
                            (Clip.date clip)));
      ("time", Json.JStr (Clip.source clip));
      ("type", Json.JStr (Clip.type clip));
      ("content", Json.JStr (Clip.content clip)) ].

(** [json_formatter]. *)
Definition json_formatter (clips : list Clip.t) : string :=
  let result := map json_object clips in
  Json.dumps (Json.JList result) 4.

(** [format_clips]. *)
Definition format_clips (clips : list Clip.t) (format : string)
  : result string :=
  if String.eqb format "text" then Ok (text_formatter clips)
  else if String.eqb format "org" then Ok (org_formatter clips)
  else if String.eqb format "json" then Ok (json_formatter clips)
  else Raise ValueError.

End Formatters.

(** [print_rawclip_parsing_error], as the lines it prints. *)
Definition print_rawclip_parsing_error (rclip : RawClip.t) (line_num : Z)
  : list string :=
  [ "Got an error while processing your Kindle clips file.";
    "The clip ending at line " ++ str_int line_num ++ " couldn't be parsed:";
    "    > " ++ RawClip.source rclip;
    "ERR > " ++ RawClip.info rclip;
    "    > " ++ RawClip.blank rclip;
    "    > " ++ RawClip.content rclip ].

(** [print_parsing_errors]. *)
Definition print_parsing_errors (rclips : list (RawClip.t * Z)) : list string :=
  flat_map (fun '(rclip, line_num) => print_rawclip_parsing_error rclip line_num)
           rclips.

(** [not types] for the value of the [types] option: [None] when no flag
    was given, a list of the flags' constants otherwise. *)
Definition falsy (types : option (list string)) : bool :=
  match types with
  | None => true
  | Some [] => true
  | Some (_ :: _) => false
  end.

(** [x in types]. *)
Definition contains (types : option (list string)) (x : string) : bool :=
  match types with
  | None => false
  | Some l => existsb (String.eqb x) l
  end.

Definition found (n : nat) (what : string) : string :=
  "Found " ++ str_int (Z.of_nat n) ++ " " ++ what ++ ".".

(** [print_extraction_messages], as the lines it prints. *)
Definition print_extraction_messages (is_quiet : bool)
           (extraction : Extraction.t) (types : option (list string))
  : list string :=
  if is_quiet then []
  else if falsy types then
    [ found (List.length (Extraction.highlights extraction)) "highlights";
      found (List.length (Extraction.notes extraction)) "notes";
      found (List.length (Extraction.bookmarks extraction)) "bookmarks" ]
  else
    ((if contains types "highlights"
      then [found (List.length (Extraction.highlights extraction))
                  "highlights"]
      else [])
     ++ (if contains types "notes"
         then [found (List.length (Extraction.notes extraction)) "notes"]
         else [])
     ++ (if contains types "bookmarks"
         then [found (List.length (Extraction.bookmarks extraction))
                     "bookmarks"]
         else []))%list.

(** ** Argument parsing and main logic *)

(** The clips the main block keeps, by request of the user. *)
Definition results_of (types : option (list string))
           (extraction : Extraction.t) : list Clip.t :=
  if falsy types then
    (Extraction.highlights extraction ++ Extraction.notes extraction
     ++ Extraction.bookmarks extraction)%list
  else
    ((if contains types "highlights"
      then Extraction.highlights extraction else [])
     ++ (if contains types "notes"
         then Extraction.notes extraction else [])
     ++ (if contains types "bookmarks"
         then Extraction.bookmarks extraction else []))%list.

(** ** What a match is: the declarative reading of the patterns *)

Module ReSpec.

Local Open Scope list_scope.

Definition within (mx : option nat) (n : nat) : Prop :=
  match mx with
  | None => True
  | Some m => (n <= m)%nat
  end.

Definition all_in (c : cls) (w : list ascii) : Prop :=
  Forall (fun a => cls_match c a = true) w.

(** [matches r s g s' g']: from position [s] with groups [g], the pattern
    [r] can match up to position [s'], leaving the groups [g']. *)
Inductive matches : regex -> list ascii -> captures ->
                    list ascii -> captures -> Prop :=
| M_eps s g : matches REps s g s g
| M_cls c a s g :
    cls_match c a = true -> matches (RCls c) (a :: s) g s g
| M_rep c mn mx w s g :
    all_in c w -> (mn <= List.length w)%nat -> within mx (List.length w) ->
    matches (RRep c mn mx) (w ++ s) g s g
| M_seq r1 r2 s g s1 g1 s2 g2 :
    matches r1 s g s1 g1 -> matches r2 s1 g1 s2 g2 ->
    matches (RSeq r1 r2) s g s2 g2
| M_alt_l r1 r2 s g s' g' :
    matches r1 s g s' g' -> matches (RAlt r1 r2) s g s' g'
| M_alt_r r1 r2 s g s' g' :
    matches r2 s g s' g' -> matches (RAlt r1 r2) s g s' g'
| M_group n r s g s' g' :
    matches r s g s' g' ->
    matches (RGroup n r) s g s' (set_group n (consumed s s') g')
| M_end s g :
    s = [] \/ s = ["010"%char] -> matches REnd s g s g.

End ReSpec.

(** ** Vocabulary of the statements *)

Module Shape.

Local Open Scope list_scope.
Import ReSpec.

(** The period class of the time pattern. *)
Definition AMP : cls := CSet ["A"; "M"; "P"]%char.

(** One or two digits: a field [[0-9]{1,2}]. *)
Definition digits12 (w : list ascii) : Prop :=
  all_in digit w /\ (1 <= List.length w <= 2)%nat.

(** A non-empty run of the letters A, M, P in either case: [[AMP]+]. *)
Definition periodlike (w : list ascii) : Prop :=
  all_in AMP w /\ (1 <= List.length w)%nat.

Definition time_field (s : string) : Prop := digits12 (chars s).
Definition period_token (s : string) : Prop := periodlike (chars s).

(** Whether the text stops on a digit. *)
Definition last_is_digit (pre : list ascii) : bool :=
  match rev pre with
  | c :: _ => cls_match digit c
  | [] => false
  end.

(** The groups of a match of the time pattern. *)
Definition time_groups (h m s p : list ascii) : captures :=
  [Some h; Some m; Some s; Some p].

(** The line ends in the time pattern: [H:M:S period], possibly followed by
    a final line feed. *)
Definition ends_in_time (line : string) : Prop :=
  exists pre h m s p rest,
    chars line
    = pre ++ h ++ ":"%char :: m ++ ":"%char :: s ++ " "%char :: p ++ rest
    /\ (rest = [] \/ rest = ["010"%char])
    /\ digits12 h /\ digits12 m /\ digits12 s /\ periodlike p.

(** The month name, lower-cased, is a key of [MONTHS]. *)
Definition known_month (m : list ascii) : Prop :=
  exists v, In (of_chars (lower m), v) MONTHS.

End Shape.

(** Five-line groups of the input. *)
Module Group.

Local Open Scope list_scope.

Definition strip (line : string) : string := removesuffix line LF.

(** The raw clip the loop builds from the five lines of a group. *)
Definition rawclip_of (g : list string) : RawClip.t :=
  RawClip.mk (strip (nth 0 g EmptyString)) (strip (nth 1 g EmptyString))
             (strip (nth 2 g EmptyString)) (strip (nth 3 g EmptyString))
             (strip (nth 4 g EmptyString)).

Definition five_lines (g : list string) : Prop := List.length g = 5%nat.

Definition kind (g : list string) : string := get_rawclip_type (rawclip_of g).

(** The metadata line starts with one of the three kind prefixes. *)
Definition valid_prefix (g : list string) : Prop := kind g <> "unparsed".

(** Page, location, date and time extraction return on the metadata
    line. *)
Definition extractable (g : list string) : Prop :=
  (exists p, parse_page_info (RawClip.info (rawclip_of g)) = Ok p)
  /\ (exists l, parse_location_info (RawClip.info (rawclip_of g)) = Ok l)
  /\ (exists d, parse_date_info (RawClip.info (rawclip_of g)) = Ok d)
  /\ (exists t, parse_time_info (RawClip.info (rawclip_of g)) = Ok t).

Definition has_type (t : string) (c : Clip.t) : bool :=
  String.eqb (Clip.type c) t.

(** Between two groups: nothing collected, the group counter at one. *)
Definition fresh (st : Locals.t) : Prop :=
  Locals.cnt st = 1%Z /\ Locals.current_clip st = [].

Definition buckets (st : Locals.t) : Extraction.t :=
  Extraction.mk (Locals.highlights st) (Locals.notes st)
                (Locals.bookmarks st) (Locals.unparsed st).

(** The unparsed entries of a run of groups that starts after [n] lines:
    each unparsed group with the value of the line counter when its fifth
    line is read. *)
Fixpoint unparsed_of (n : Z) (gs : list (list string))
  : list (RawClip.t * Z) :=
  match gs with
  | [] => []
  | g :: gs' =>
      (if String.eqb (kind g) "unparsed" then [(rawclip_of g, (n + 4)%Z)]
       else [])
      ++ unparsed_of (n + 5)%Z gs'
  end.

(** The local variables between two groups, one group and its clip later. *)
Definition after_group (st : Locals.t) (g : list string) (clip : Clip.t)
  : Locals.t :=
  Locals.mk
    (Locals.highlights st ++ filter (has_type "highlight") [clip])
    (Locals.notes st ++ filter (has_type "note") [clip])
    (Locals.bookmarks st ++ filter (has_type "bookmark") [clip])
    (Locals.unparsed st ++ unparsed_of (Locals.line_cnt st) [g])
    [] (Locals.line_cnt st + 5)%Z 1%Z.

(** The local variables after a run of groups with the clips [clips]. *)
Definition after_groups (st : Locals.t) (gs : list (list string))
           (clips : list Clip.t) : Locals.t :=
  Locals.mk
    (Locals.highlights st ++ filter (has_type "highlight") clips)
    (Locals.notes st ++ filter (has_type "note") clips)
    (Locals.bookmarks st ++ filter (has_type "bookmark") clips)
    (Locals.unparsed st ++ unparsed_of (Locals.line_cnt st) gs)
    [] (Locals.line_cnt st + 5 * Z.of_nat (List.length gs))%Z 1%Z.

(** The clip of each group, in order. *)
Definition clips_of (gs : list (list string)) (clips : list Clip.t) : Prop :=
  Forall2 (fun g c => parse_rawclip (rawclip_of g) = Ok c) gs clips.

End Group.

(** Fields and records of any input. *)
Module Field.

Local Open Scope list_scope.
Import ReSpec.

(** A non-empty run of digits: [[0-9]+]. *)
Definition digits (w : list ascii) : Prop :=
  all_in digit w /\ (1 <= List.length w)%nat.

Definition number (s : string) : Prop := digits (chars s).

(** A non-empty run of letters: [[a-z]+] under [IGNORECASE]. *)
Definition word (s : string) : Prop :=
  all_in letter (chars s) /\ (1 <= List.length (chars s))%nat.

(** Four digits: [[0-9]{4}]. *)
Definition year4 (s : string) : Prop :=
  all_in digit (chars s) /\ List.length (chars s) = 4%nat.

(** The text does not go on with a character of the class. *)
Definition stops (c : cls) (rest : list ascii) : Prop :=
  match rest with
  | [] => True
  | a :: _ => cls_match c a = false
  end.

(** No character of the text that matches [a] is followed, in the text, by
    one that matches [b]; the last character does not match [a]. *)
Fixpoint free_of (a b : ascii) (pre : list ascii) : bool :=
  match pre with
  | [] => true
  | c :: r =>
      (negb (cls_match (CChar a) c)
       || match r with
          | [] => false
          | d :: _ => negb (cls_match (CChar b) d)
          end)
      && free_of a b r
  end.

(** The [k]-th group of five lines of the input, counted from 0. *)
Definition window (f : list string) (k : nat) : list string :=
  firstn 5 (skipn (5 * k) f).

(** The whole groups of five lines of the input, in order. *)
Definition windows (f : list string) : list (list string) :=
  map (window f) (List.seq 0 (List.length f / 5)).

Definition valid_date (d : Datetime.date) : Prop :=
  (1 <= Datetime.year d <= 9999
   /\ 1 <= Datetime.month d <= 12
   /\ 1 <= Datetime.day d
        <= Datetime.days_in_month (Datetime.year d) (Datetime.month d))%Z.

Definition valid_time (t : Datetime.time) : Prop :=
  (0 <= Datetime.hour t <= 23
   /\ 0 <= Datetime.minute t <= 59
   /\ 0 <= Datetime.second t <= 59)%Z.

(** Every list of an extraction holds entries of its own type. *)
Definition typed (e : Extraction.t) : Prop :=
  Forall (fun c => Clip.type c = "highlight") (Extraction.highlights e)
  /\ Forall (fun c => Clip.type c = "note") (Extraction.notes e)
  /\ Forall (fun c => Clip.type c = "bookmark") (Extraction.bookmarks e)
  /\ Forall (fun x => get_rawclip_type (fst x) = "unparsed")
            (Extraction.unparsed e).

(** The number of entries of an extraction, all four lists together. *)
Definition entries (e : Extraction.t) : nat :=
  (List.length (Extraction.highlights e) + List.length (Extraction.notes e)
   + List.length (Extraction.bookmarks e)
   + List.length (Extraction.unparsed e))%nat.

(** All the clips of an extraction. *)
Definition clips (e : Extraction.t) : list Clip.t :=
  Extraction.highlights e ++ Extraction.notes e ++ Extraction.bookmarks e.

(** At most two integers, none negative. *)
Definition range_like (l : list Z) : Prop :=
  (List.length l <= 2)%nat /\ Forall (fun n => (0 <= n)%Z) l.

(** Integers of at most [max_str_digits] digits, the ones [str]
    converts. *)
Definition within_limit (l : list Z) : Prop :=
  Forall (fun n => (n < 10 ^ max_str_digits)%Z) l.

(** What every clip of an extraction satisfies. *)
Definition clip_ok (c : Clip.t) : Prop :=
  range_like (Clip.page c) /\ range_like (Clip.location c)
  /\ match Clip.date c with
     | Some d => valid_date d
     | None => True
     end
  /\ match Clip.time c with
     | Some t => valid_time t
     | None => True
     end.

(** The extraction that raised, the ones before it having returned. *)
Definition raised_in (info : string) (e : exn) : Prop :=
  parse_page_info info = Raise e
  \/ ((exists p, parse_page_info info = Ok p)
      /\ parse_location_info info = Raise e)
  \/ ((exists p, parse_page_info info = Ok p)
      /\ (exists l, parse_location_info info = Ok l)
      /\ parse_date_info info = Raise e)
  \/ ((exists p, parse_page_info info = Ok p)
      /\ (exists l, parse_location_info info = Ok l)
      /\ (exists d, parse_date_info info = Ok d)
      /\ parse_time_info info = Raise e).

(** The lists of clips of two extractions are the same, and so are the
    line numbers of their unparsed entries. *)
Definition same_clips (e1 e2 : Extraction.t) : Prop :=
  Extraction.highlights e1 = Extraction.highlights e2
  /\ Extraction.notes e1 = Extraction.notes e2
  /\ Extraction.bookmarks e1 = Extraction.bookmarks e2
  /\ map snd (Extraction.unparsed e1) = map snd (Extraction.unparsed e2).

(** Two groups of five lines with the same first, second and fourth
    line. *)
Definition same_text (g g' : list string) : Prop :=
  List.length g = 5%nat /\ List.length g' = 5%nat
  /\ nth 0 g EmptyString = nth 0 g' EmptyString
  /\ nth 1 g EmptyString = nth 1 g' EmptyString
  /\ nth 3 g EmptyString = nth 3 g' EmptyString.

(** The text [x] occurs in the text [s]. *)
Definition occurs_in (x s : string) : Prop :=
  exists pre post : string, s = (pre ++ x ++ post)%string.

(** A line feed or a printable ASCII character. *)
Definition plain_char (c : ascii) : bool :=
  (nat_of_ascii c =? 10)%nat
  || ((32 <=? nat_of_ascii c)%nat && (nat_of_ascii c <=? 126)%nat).

Definition plain (s : string) : Prop := forallb plain_char (chars s) = true.

(** Both runs end the same way. *)
Definition agree (A : Type) (R : A -> A -> Prop) (r1 r2 : result A) : Prop :=
  match r1, r2 with
  | Ok a1, Ok a2 => R a1 a2
  | Raise e1, Raise e2 => e1 = e2
  | _, _ => False
  end.

End Field.

(** * Properties *)

(** ** The matcher against the declarative reading *)

Module ReFacts.

Import ReSpec.
Local Open Scope list_scope.

Lemma rrep_sound (A : Type) (c : cls) (k : list ascii -> option A) (x : A) :
  forall s mn mx,
    rrep c mn mx s k = Some x ->
    exists w s', s = w ++ s' /\ all_in c w /\ (mn <= List.length w)%nat
                 /\ within mx (List.length w) /\ k s' = Some x.
Proof.
  assert (Hstop : forall s mn mx,
             match mn with O => k s | S _ => None end = Some x ->
             exists w s', s = w ++ s' /\ all_in c w
                          /\ (mn <= List.length w)%nat
                          /\ within mx (List.length w) /\ k s' = Some x).
  { intros s mn mx H. destruct mn; [|discriminate].
    exists [], s. repeat split; auto.
    - constructor.
    - destruct mx; simpl; auto with arith. }
  induction s as [|a s IH]; intros mn mx H; simpl in H.
  - now apply Hstop.
  - destruct (more mx && cls_match c a) eqn:E; [|now apply Hstop].
    destruct (rrep c (pred mn) (option_map pred mx) s k) eqn:R;
      [|now apply Hstop].
    injection H as ->.
    apply andb_prop in E as [Em Ec].
    destruct (IH _ _ R) as (w & s' & -> & Hw & Hmn & Hmx & Hk).
    exists (a :: w), s'. repeat split; auto.
    + constructor; auto.
    + simpl; lia.
    + destruct mx as [[|m]|]; simpl in *; try discriminate; auto; lia.
Qed.

Theorem rmatch_sound (A : Type) (r : regex) :
  forall s g (k : list ascii -> captures -> option A) x,
    rmatch r s g k = Some x ->
    exists s' g', matches r s g s' g' /\ k s' g' = Some x.
Proof.
  induction r as [|c|c mn mx|r1 IH1 r2 IH2|r1 IH1 r2 IH2|n r IH|];
    intros s g k x H; simpl in H.
  - exists s, g; split; [constructor|assumption].
  - destruct s as [|a s]; [discriminate|].
    destruct (cls_match c a) eqn:E; [|discriminate].
    exists s, g; split; [now constructor|assumption].
  - apply rrep_sound in H as (w & s' & -> & Hw & Hmn & Hmx & Hk).
    exists s', g; split; [now constructor|assumption].
  - apply IH1 in H as (s1 & g1 & H1 & H).
    apply IH2 in H as (s2 & g2 & H2 & H).
    exists s2, g2; split; [econstructor; eassumption|assumption].
  - destruct (rmatch r1 s g k) eqn:E.
    + injection H as ->. apply IH1 in E as (s' & g' & H1 & Hk).
      exists s', g'; split; [now apply M_alt_l|assumption].
    + apply IH2 in H as (s' & g' & H2 & Hk).
      exists s', g'; split; [now apply M_alt_r|assumption].
  - apply IH in H as (s' & g' & H1 & Hk).
    eexists _, _; split; [apply M_group; eassumption|assumption].
  - destruct s as [|a [|b s]]; try discriminate.
    + exists [], g; split; [constructor; auto|assumption].
    + destruct (Ascii.eqb a "010") eqn:E; [|discriminate].
      apply Ascii.eqb_eq in E as ->.
      exists ["010"%char], g; split; [constructor; auto|assumption].
Qed.

(** A match consumes a prefix of what is left of the subject. *)
Lemma matches_suffix r s g s' g' :
  matches r s g s' g' -> exists w, s = w ++ s'.
Proof.
  induction 1 as [s g|c a s g H|c mn mx w s g| r1 r2 s g s1 g1 s2 g2 _ IH1 _ IH2
                  | | |n r s g s' g' _ IH|s g H]; eauto.
  - now exists [].
  - now exists [a].
  - destruct IH1 as [w1 ->], IH2 as [w2 ->].
    exists (w1 ++ w2). now rewrite app_assoc.
  - now exists [].
Qed.

Lemma consumed_app (w s : list ascii) : consumed (w ++ s) s = w.
Proof.
  unfold consumed. rewrite length_app.
  replace (List.length w + List.length s - List.length s)%nat
    with (List.length w) by lia.
  rewrite firstn_app, Nat.sub_diag, firstn_all. simpl. apply app_nil_r.
Qed.

Lemma rrep_complete (A : Type) (c : cls) (k : list ascii -> option A) :
  forall w s mn mx,
    all_in c w -> (mn <= List.length w)%nat -> within mx (List.length w) ->
    k s <> None -> rrep c mn mx (w ++ s) k <> None.
Proof.
  induction w as [|a w IH]; intros s mn mx Hw Hmn Hmx Hk.
  - simpl in Hmn. assert (mn = 0%nat) as -> by lia.
    destruct s as [|b s]; simpl; [assumption|].
    destruct (more mx && cls_match c b); [|assumption].
    match goal with
    | |- match ?m with _ => _ end <> None => destruct m
    end; [discriminate|assumption].
  - inversion Hw as [|? ? Ha Hw']; subst.
    simpl. simpl in Hmn, Hmx.
    assert (Hm : more mx = true).
    { destruct mx as [[|m]|]; simpl in *; auto; lia. }
    rewrite Hm, Ha. simpl.
    assert (R : rrep c (pred mn) (option_map pred mx) (w ++ s) k <> None).
    { apply IH; auto; [lia|].
      destruct mx as [[|m]|]; simpl in *; auto; lia. }
    destruct (rrep c (pred mn) (option_map pred mx) (w ++ s) k);
      [discriminate|contradiction].
Qed.

Theorem rmatch_complete (A : Type) r s g s' g' :
  matches r s g s' g' ->
  forall h (k : list ascii -> captures -> option A),
    (forall h', k s' h' <> None) -> rmatch r s h k <> None.
Proof.
  induction 1 as [s g|c a s g H|c mn mx w s g Hw Hmn Hmx
                  |r1 r2 s g s1 g1 s2 g2 _ IH1 _ IH2
                  |r1 r2 s g s' g' _ IH|r1 r2 s g s' g' _ IH
                  |n r s g s' g' _ IH|s g H]; intros h k Hk; simpl.
  - apply Hk.
  - rewrite H. apply Hk.
  - apply rrep_complete; auto.
  - apply IH1. intros h'. apply IH2. assumption.
  - specialize (IH h k Hk). destruct (rmatch r1 s h k); [discriminate|contradiction].
  - destruct (rmatch r1 s h k); [discriminate|]. apply IH; assumption.
  - apply IH. intros h'. apply Hk.
  - destruct H as [->| ->]; simpl; apply Hk.
Qed.

End ReFacts.

(** ** The example of the docstring *)

Example docstring_clip :
  parse_rawclips_file
    [ "Common LISP: A Gentle Introduction to Symbolic Computation (David S. Touretzky)" ++ LF;
      "- Your Highlight on page 46 | Location 694-694 | Added on Sunday, August 27, 2023 1:37:08 PM" ++ LF;
      LF;
      "The length of a list is the number of elements it has" ++ LF;
      "==========" ++ LF ]
  = Ok (Extraction.mk
          [ Clip.mk "highlight"
              "Common LISP: A Gentle Introduction to Symbolic Computation (David S. Touretzky)"
              [46%Z] [694%Z; 694%Z]
              (Some (Datetime.Date 2023 8 27))
              (Some (Datetime.Time 13 37 8))
              "The length of a list is the number of elements it has" ]
          [] [] []).
Proof. vm_compute. reflexivity. Qed.

(** ** Strings as lists of characters *)

Lemma chars_app (a b : string) : chars (a ++ b) = (chars a ++ chars b)%list.
Proof.
  unfold chars. induction a as [|c a IH]; simpl; [reflexivity|].
  now rewrite IH.
Qed.

Lemma length_chars (s : string) : List.length (chars s) = String.length s.
Proof.
  unfold chars. induction s as [|c s IH]; simpl; [reflexivity|].
  now rewrite IH.
Qed.

(** ** The time pattern *)

Module TimeFacts.

Import ReSpec ReFacts Shape.
Local Open Scope list_scope.

Ltac inv_matches :=
  repeat match goal with
  | H : matches (RSeq _ _) _ _ _ _ |- _ => inversion H; subst; clear H
  | H : matches (RGroup _ _) _ _ _ _ |- _ => inversion H; subst; clear H
  | H : matches (RCls _) _ _ _ _ |- _ => inversion H; subst; clear H
  | H : matches (RRep _ _ _) _ _ _ _ |- _ => inversion H; subst; clear H
  | H : matches REnd _ _ _ _ |- _ => inversion H; subst; clear H
  | H : matches REps _ _ _ _ |- _ => inversion H; subst; clear H
  end.

(** Under [IGNORECASE] a separator still only matches itself. *)
Lemma cls_match_colon a : cls_match (CChar ":") a = true -> a = ":"%char.
Proof.
  destruct a as [[] [] [] [] [] [] [] []]; try discriminate; reflexivity.
Qed.

Lemma cls_match_space a : cls_match (CChar " ") a = true -> a = " "%char.
Proof.
  destruct a as [[] [] [] [] [] [] [] []]; try discriminate; reflexivity.
Qed.

Lemma time_re_inv s s' g :
  matches time_re s (repeat None 4) s' g ->
  exists h m sec p,
    s = h ++ ":"%char :: m ++ ":"%char :: sec ++ " "%char :: p ++ s'
    /\ (s' = [] \/ s' = ["010"%char])
    /\ digits12 h /\ digits12 m /\ digits12 sec /\ periodlike p
    /\ g = time_groups h m sec p.
Proof.
  cbv [time_re seq text lit chars list_ascii_of_string between plus].
  intros H. inv_matches.
  repeat match goal with
  | H : cls_match (CChar ":") _ = true |- _ => apply cls_match_colon in H; subst
  | H : cls_match (CChar " ") _ = true |- _ => apply cls_match_space in H; subst
  end.
  rewrite !consumed_app. simpl in *.
  exists w, w0, w1, w2. unfold digits12, periodlike, AMP, time_groups.
  intuition.
Qed.

Lemma time_re_intro h m sec p rest :
  digits12 h -> digits12 m -> digits12 sec -> periodlike p ->
  rest = [] \/ rest = ["010"%char] ->
  exists g,
    matches time_re
      (h ++ ":"%char :: m ++ ":"%char :: sec ++ " "%char :: p ++ rest)
      (repeat None 4) rest g.
Proof.
  intros [Hh Lh] [Hm Lm] [Hs Ls] [Hp Lp] Hrest.
  cbv [time_re seq text lit chars list_ascii_of_string between plus].
  eexists.
  repeat first
    [ eapply M_seq
    | eapply M_group
    | eapply M_rep; [eassumption | lia | simpl; lia || exact I]
    | eapply M_cls; reflexivity
    | eapply M_end; assumption ].
Qed.

(** Splitting a text at a separator that the run next to it excludes. *)
Lemma split_first_sep (P : ascii -> Prop) (sep : ascii) :
  ~ P sep ->
  forall w w' X X',
    Forall P w -> Forall P w' ->
    w ++ sep :: X = w' ++ sep :: X' -> w = w' /\ X = X'.
Proof.
  intros Hsep. induction w as [|a w IH]; intros [|a' w'] X X' Hw Hw' E;
    simpl in E.
  - injection E as ->. auto.
  - injection E as <- _. inversion Hw'; contradiction.
  - injection E as -> _. inversion Hw; contradiction.
  - injection E as -> E. inversion Hw; inversion Hw'; subst.
    destruct (IH w' X X') as [-> ->]; auto.
Qed.

Lemma split_last_sep (P : ascii -> Prop) (sep : ascii) :
  ~ P sep ->
  forall w w' X X',
    Forall P w -> Forall P w' ->
    X ++ sep :: w = X' ++ sep :: w' -> X = X' /\ w = w'.
Proof.
  intros Hsep w w' X X' Hw Hw' E.
  apply (f_equal (@rev ascii)) in E.
  rewrite !rev_app_distr in E. simpl in E. rewrite <- !app_assoc in E.
  simpl in E.
  apply (@split_first_sep P sep Hsep) in E; try now apply Forall_rev.
  destruct E as [E1 E2].
  apply (f_equal (@rev ascii)) in E1, E2.
  rewrite !rev_involutive in E1, E2. auto.
Qed.

(** Read from its end, a text has at most one decomposition along the time
    pattern. *)
Lemma time_shape_unique X h m s p h' m' s' p' rest :
  all_in digit m -> all_in digit s -> all_in AMP p ->
  all_in digit m' -> all_in digit s' -> all_in AMP p' ->
  rest = [] \/ rest = ["010"%char] ->
  X ++ h ++ ":"%char :: m ++ ":"%char :: s ++ " "%char :: p
  = h' ++ ":"%char :: m' ++ ":"%char :: s' ++ " "%char :: p' ++ rest ->
  X ++ h = h' /\ m = m' /\ s = s' /\ p = p'.
Proof.
  intros Hm Hs Hp Hm' Hs' Hp' Hrest E.
  set (P := fun a => cls_match AMP a = true \/ a = "010"%char).
  assert (E1 : (X ++ h ++ ":"%char :: m ++ ":"%char :: s) ++ " "%char :: p
               = (h' ++ ":"%char :: m' ++ ":"%char :: s')
                   ++ " "%char :: (p' ++ rest)).
  { repeat (rewrite <- ?app_assoc; simpl). exact E. }
  apply (@split_last_sep P " "%char) in E1.
  - destruct E1 as [E1 E2].
    assert (rest = []) as ->.
    { destruct Hrest as [->| ->]; auto.
      exfalso. subst p.
      apply Forall_app in Hp as [_ Hp]. inversion Hp; discriminate. }
    rewrite app_nil_r in E2.
    assert (E3 : (X ++ h ++ ":"%char :: m) ++ ":"%char :: s
                 = (h' ++ ":"%char :: m') ++ ":"%char :: s').
    { repeat (rewrite <- ?app_assoc; simpl). exact E1. }
    apply (@split_last_sep (fun a => cls_match digit a = true) ":"%char)
      in E3; auto; [|discriminate].
    destruct E3 as [E3 E4].
    rewrite app_assoc in E3.
    apply (@split_last_sep (fun a => cls_match digit a = true) ":"%char)
      in E3; auto; [|discriminate].
    tauto.
  - unfold P. intros [H|H]; discriminate.
  - eapply Forall_impl; [|exact Hp]. unfold P; auto.
  - apply Forall_app; split.
    + eapply Forall_impl; [|exact Hp']. unfold P; auto.
    + destruct Hrest as [->| ->]; [constructor|].
      constructor; [now right|constructor].
Qed.

Lemma match_here_time_inv t g :
  match_here 4 time_re t = Some g ->
  exists h m s p rest,
    t = h ++ ":"%char :: m ++ ":"%char :: s ++ " "%char :: p ++ rest
    /\ (rest = [] \/ rest = ["010"%char])
    /\ digits12 h /\ digits12 m /\ digits12 s /\ periodlike p
    /\ g = time_groups h m s p.
Proof.
  unfold match_here. intros H.
  apply rmatch_sound in H as (s' & g' & H & E). injection E as ->.
  apply time_re_inv in H as (h & m & s & p & H).
  exists h, m, s, p, s'. tauto.
Qed.

Lemma match_here_time_some h m s p rest :
  digits12 h -> digits12 m -> digits12 s -> periodlike p ->
  rest = [] \/ rest = ["010"%char] ->
  match_here 4 time_re
    (h ++ ":"%char :: m ++ ":"%char :: s ++ " "%char :: p ++ rest) <> None.
Proof.
  intros Hh Hm Hs Hp Hrest.
  destruct (time_re_intro Hh Hm Hs Hp Hrest) as [g0 H0].
  unfold match_here.
  eapply rmatch_complete; [exact H0|]. discriminate.
Qed.

Lemma match_here_time h m s p :
  digits12 h -> digits12 m -> digits12 s -> periodlike p ->
  match_here 4 time_re (h ++ ":"%char :: m ++ ":"%char :: s ++ " "%char :: p)
  = Some (time_groups h m s p).
Proof.
  intros Hh Hm Hs Hp.
  pose proof (@match_here_time_some h m s p [] Hh Hm Hs Hp (or_introl eq_refl))
    as Hne.
  rewrite app_nil_r in Hne.
  destruct (match_here 4 time_re
              (h ++ ":"%char :: m ++ ":"%char :: s ++ " "%char :: p))
    as [g|] eqn:E; [|contradiction].
  f_equal.
  destruct (match_here_time_inv _ E)
    as (h' & m' & s' & p' & rest & Et & Hrest & Hh' & Hm' & Hs' & Hp' & ->).
  apply (@time_shape_unique []) in Et;
    try (apply Hm || apply Hs || apply Hp
         || apply Hm' || apply Hs' || apply Hp');
    auto.
  simpl in Et. destruct Et as (-> & -> & -> & ->). reflexivity.
Qed.

(** No match starts earlier, unless the hour could take one more digit. *)
Lemma match_here_time_earlier X h m s p :
  X <> [] ->
  digits12 h -> digits12 m -> digits12 s -> periodlike p ->
  List.length h = 2%nat \/ last_is_digit X = false ->
  match_here 4 time_re
    (X ++ h ++ ":"%char :: m ++ ":"%char :: s ++ " "%char :: p)
  = None.
Proof.
  intros HX Hh Hm Hs Hp Hor.
  destruct (match_here 4 time_re _) as [g|] eqn:E; [exfalso|reflexivity].
  destruct (match_here_time_inv _ E)
    as (h' & m' & s' & p' & rest & Et & Hrest & Hh' & Hm' & Hs' & Hp' & _).
  apply time_shape_unique in Et;
    try (apply Hm || apply Hs || apply Hp
         || apply Hm' || apply Hs' || apply Hp');
    auto.
  destruct Et as (Et & _). destruct Hh' as [Dh' Lh']. subst h'.
  rewrite length_app in Lh'.
  destruct Hor as [L|L].
  - destruct X; [contradiction|simpl in Lh'; lia].
  - apply Forall_app in Dh' as [DX _].
    unfold last_is_digit in L.
    destruct (rev X) as [|c r] eqn:R.
    + apply (f_equal (@rev ascii)) in R. rewrite rev_involutive in R.
      simpl in R. contradiction.
    + assert (In c X) by (apply in_rev; rewrite R; now left).
      unfold all_in in DX. rewrite Forall_forall in DX.
      rewrite (DX c) in L; auto. discriminate.
Qed.

Lemma last_is_digit_cons c X :
  last_is_digit (c :: X) = false -> last_is_digit X = false.
Proof.
  unfold last_is_digit. simpl.
  destruct (rev X) as [|d r]; simpl; auto.
Qed.

Lemma search_time pre h m s p :
  digits12 h -> digits12 m -> digits12 s -> periodlike p ->
  List.length h = 2%nat \/ last_is_digit pre = false ->
  search_from 4 time_re
    (pre ++ h ++ ":"%char :: m ++ ":"%char :: s ++ " "%char :: p)
  = Some (time_groups h m s p).
Proof.
  intros Hh Hm Hs Hp.
  induction pre as [|c pre IH]; intros Hor.
  - simpl app.
    destruct h as [|a h]; [destruct Hh as [_ L]; simpl in L; lia|].
    simpl app. unfold search_from; fold search_from.
    change (a :: h ++ ":"%char :: m ++ ":"%char :: s ++ " "%char :: p)
      with ((a :: h) ++ ":"%char :: m ++ ":"%char :: s ++ " "%char :: p).
    now rewrite match_here_time.
  - simpl app. unfold search_from; fold search_from.
    change (c :: pre ++ h ++ ":"%char :: m ++ ":"%char :: s ++ " "%char :: p)
      with ((c :: pre) ++ h ++ ":"%char :: m ++ ":"%char :: s ++ " "%char :: p).
    rewrite match_here_time_earlier; auto; [|discriminate].
    simpl app. apply IH.
    destruct Hor as [L|L]; [now left|right].
    now apply last_is_digit_cons in L.
Qed.

(** [search] reports a match of some suffix, and misses none. *)
Lemma search_from_some n r s g :
  search_from n r s = Some g ->
  exists pre t, s = pre ++ t /\ match_here n r t = Some g.
Proof.
  induction s as [|c s IH]; simpl; intros H.
  - destruct (match_here n r []) eqn:E; [|discriminate].
    injection H as ->. now exists [], [].
  - destruct (match_here n r (c :: s)) eqn:E.
    + injection H as ->. now exists [], (c :: s).
    + destruct (IH H) as (pre & t & -> & Ht).
      now exists (c :: pre), t.
Qed.

Lemma search_from_none n r pre t :
  search_from n r (pre ++ t) = None -> match_here n r t = None.
Proof.
  induction pre as [|c pre IH]; simpl; intros H.
  - destruct t; simpl in H; destruct (match_here n r _); auto; discriminate.
  - destruct (match_here n r (c :: pre ++ t)); [discriminate|auto].
Qed.

Lemma search_time_groups line g :
  search 4 time_re line = Some g ->
  ends_in_time line
  /\ exists h m s p,
       g = time_groups h m s p /\ digits12 h /\ digits12 m /\ digits12 s.
Proof.
  unfold search. intros H.
  apply search_from_some in H as (pre & t & E & H).
  apply match_here_time_inv in H
    as (h & m & s & p & rest & -> & Hrest & Hh & Hm & Hs & Hp & ->).
  split; [|now exists h, m, s, p].
  exists pre, h, m, s, p, rest. auto 10.
Qed.

Lemma search_time_none line :
  search 4 time_re line = None <-> ~ ends_in_time line.
Proof.
  split.
  - intros H (pre & h & m & s & p & rest & E & Hrest & Hh & Hm & Hs & Hp).
    unfold search in H. rewrite E in H.
    apply search_from_none in H.
    now apply (match_here_time_some Hh Hm Hs Hp Hrest).
  - intros H. destruct (search 4 time_re line) eqn:E; [|reflexivity].
    apply search_time_groups in E as [E _]. contradiction.
Qed.

End TimeFacts.

(** ** Conversion of digit strings *)

Import Shape.

Lemma int_within (w : list ascii) :
  (Z.of_nat (List.length w) <= max_str_digits)%Z -> int w = Ok (decimal w).
Proof.
  intros H. unfold int.
  destruct (Z.ltb_spec max_str_digits (Z.of_nat (List.length w)));
    [lia|reflexivity].
Qed.

Lemma int_beyond (w : list ascii) :
  (max_str_digits < Z.of_nat (List.length w))%Z -> int w = Raise ValueError.
Proof.
  intros H. unfold int.
  destruct (Z.ltb_spec max_str_digits (Z.of_nat (List.length w)));
    [reflexivity|lia].
Qed.

Lemma int_cases (w : list ascii) :
  int w = Ok (decimal w)
  /\ (Z.of_nat (List.length w) <= max_str_digits)%Z
  \/ int w = Raise ValueError
     /\ (max_str_digits < Z.of_nat (List.length w))%Z.
Proof.
  destruct (Z.le_gt_cases (Z.of_nat (List.length w)) max_str_digits) as [H|H].
  - left. split; [now apply int_within|assumption].
  - right. split; [now apply int_beyond|assumption].
Qed.

Lemma int_short (w : list ascii) :
  (List.length w <= 4)%nat -> int w = Ok (decimal w).
Proof.
  intros H. apply int_within. unfold max_str_digits. lia.
Qed.

Lemma int_digits12 (w : list ascii) : digits12 w -> int w = Ok (decimal w).
Proof. intros [_ H]. apply int_short. lia. Qed.

(** ** Time extraction *)

Lemma parse_time_info_groups line h m s p :
  digits12 h -> digits12 m -> digits12 s ->
  search 4 time_re line = Some (time_groups h m s p) ->
  parse_time_info line
  = (let hour := decimal h in
     let period := of_chars (upper p) in
     v <- Datetime.mk_time
            (if String.eqb period "PM" && negb (hour =? 12)%Z
             then (hour + 12)%Z
             else if String.eqb period "AM" && (hour =? 12)%Z
                  then (hour - 12)%Z
                  else hour)
            (decimal m) (decimal s) ;;
     Ok (Some v)).
Proof.
  intros Hh Hm Hs H. unfold parse_time_info. rewrite H.
  unfold time_groups. cbn [group_text group nth bind].
  rewrite (int_digits12 Hh). cbn [bind].
  rewrite (int_digits12 Hm). cbn [bind].
  rewrite (int_digits12 Hs). reflexivity.
Qed.

Lemma search_time_line (pre h m s p : string) :
  time_field h -> time_field m -> time_field s -> period_token p ->
  String.length h = 2%nat \/ last_is_digit (chars pre) = false ->
  search 4 time_re (pre ++ h ++ ":" ++ m ++ ":" ++ s ++ " " ++ p)
  = Some (time_groups (chars h) (chars m) (chars s) (chars p)).
Proof.
  intros Hh Hm Hs Hp Hor. unfold search.
  rewrite !chars_app. simpl.
  apply TimeFacts.search_time; auto.
  destruct Hor as [L|L]; [left|now right].
  now rewrite length_chars.
Qed.

(** C6.  Time extraction converts 12-hour to 24-hour time: on a line that
    ends in [H:M:S period] (with no digit right before a one-digit hour),
    the hour is increased by 12 for PM when it is not 12, decreased by 12
    for AM when it is 12, and kept otherwise; a line ending in 12:00:00 AM
    gives 00:00:00, one ending in 12:00:00 PM gives 12:00:00, and the time
    is absent exactly when the line does not end in the pattern. *)
Theorem parse_time_info_12h_to_24h :
  (forall pre h m s p : string,
      time_field h -> time_field m -> time_field s -> period_token p ->
      String.length h = 2%nat \/ last_is_digit (chars pre) = false ->
      let line := pre ++ h ++ ":" ++ m ++ ":" ++ s ++ " " ++ p in
      let hour := decimal (chars h) in
      let period := of_chars (upper (chars p)) in
      let built (hour24 : Z) :=
        v <- Datetime.mk_time hour24 (decimal (chars m))
                              (decimal (chars s)) ;;
        Ok (Some v) in
      (period = "PM" -> hour <> 12%Z ->
       parse_time_info line = built (hour + 12)%Z)
      /\ (period = "AM" -> hour = 12%Z ->
          parse_time_info line = built (hour - 12)%Z)
      /\ (~ (period = "PM" /\ hour <> 12%Z) ->
          ~ (period = "AM" /\ hour = 12%Z) ->
          parse_time_info line = built hour))
  /\ (forall pre : string,
         parse_time_info (pre ++ "12:00:00 AM")
         = Ok (Some (Datetime.Time 0 0 0)))
  /\ (forall pre : string,
         parse_time_info (pre ++ "12:00:00 PM")
         = Ok (Some (Datetime.Time 12 0 0)))
  /\ (forall line : string,
         parse_time_info line = Ok None <-> ~ ends_in_time line).
Proof.
  split; [|split; [|split]].
  - intros pre h m s p Hh Hm Hs Hp Hor line hour period built.
    pose proof (search_time_line pre Hh Hm Hs Hp Hor) as S.
    apply (@parse_time_info_groups _ _ _ _ _ Hh Hm Hs) in S. fold line in S.
    cbv zeta in S. fold hour period in S.
    repeat split.
    + intros EP Hne. rewrite S, EP. simpl String.eqb.
      apply Z.eqb_neq in Hne. now rewrite Hne.
    + intros EA He. rewrite S, EA. simpl String.eqb.
      apply Z.eqb_eq in He. now rewrite He.
    + intros N1 N2. rewrite S.
      destruct (String.eqb_spec period "PM") as [EP|NP];
        destruct (String.eqb_spec period "AM") as [EA|NA];
        destruct (Z.eqb_spec hour 12) as [He|Hne]; simpl;
        try reflexivity;
        exfalso; solve [apply N1; auto | apply N2; auto | congruence].
  - intros pre.
    assert (S : search 4 time_re (pre ++ "12" ++ ":" ++ "00" ++ ":" ++ "00"
                                      ++ " " ++ "AM")
                = Some (time_groups (chars "12") (chars "00") (chars "00")
                                    (chars "AM"))).
    { apply search_time_line;
        try (split; [repeat constructor|simpl; lia]). now left. }
    apply parse_time_info_groups in S;
      try (split; [repeat constructor|simpl; lia]).
    exact S.
  - intros pre.
    assert (S : search 4 time_re (pre ++ "12" ++ ":" ++ "00" ++ ":" ++ "00"
                                      ++ " " ++ "PM")
                = Some (time_groups (chars "12") (chars "00") (chars "00")
                                    (chars "PM"))).
    { apply search_time_line;
        try (split; [repeat constructor|simpl; lia]). now left. }
    apply parse_time_info_groups in S;
      try (split; [repeat constructor|simpl; lia]).
    exact S.
  - intros line. rewrite <- TimeFacts.search_time_none. split.
    + intros H. destruct (search 4 time_re line) as [g|] eqn:E;
        [exfalso|reflexivity].
      destruct (TimeFacts.search_time_groups _ E)
        as [_ (h & m & s & p & -> & Hh & Hm & Hs)].
      apply (@parse_time_info_groups _ _ _ _ _ Hh Hm Hs) in E. rewrite E in H.
      cbv zeta in H.
      destruct (Datetime.mk_time _ _ _); discriminate.
    + intros E. unfold parse_time_info. now rewrite E.
Qed.

(** The scenario of the documentation and the two readings of noon. *)
Lemma parse_time_info_12h_to_24h_witness :
  parse_time_info
    "- Your Highlight on page 46 | Location 694-694 | Added on Sunday, August 27, 2023 1:37:08 PM"
  = Ok (Some (Datetime.Time 13 37 8))
  /\ parse_time_info "Added on Monday, January 1, 2024 12:05:09 AM"
     = Ok (Some (Datetime.Time 0 5 9))
  /\ parse_time_info "Added on Monday, January 1, 2024 12:05:09 PM"
     = Ok (Some (Datetime.Time 12 5 9))
  /\ parse_time_info "- Your Bookmark on page 3" = Ok None.
Proof.
  pose proof parse_time_info_12h_to_24h as (General & _ & _ & Absent).
  split; [|split; [|split]].
  - refine (proj1 (General
      "- Your Highlight on page 46 | Location 694-694 | Added on Sunday, August 27, 2023 "
      "1" "37" "08" "PM" _ _ _ _ _) eq_refl _);
      try (split; [repeat constructor|simpl; lia]);
      [now right|discriminate].
  - refine (proj1 (proj2 (General
      "Added on Monday, January 1, 2024 " "12" "05" "09" "AM" _ _ _ _ _))
      eq_refl eq_refl);
      try (split; [repeat constructor|simpl; lia]). now left.
  - refine (proj2 (proj2 (General
      "Added on Monday, January 1, 2024 " "12" "05" "09" "PM" _ _ _ _ _))
      _ _);
      try (split; [repeat constructor|simpl; lia]);
      [now left|intros [_ H]; now apply H|intros [H _]; discriminate].
  - apply Absent. rewrite <- TimeFacts.search_time_none. reflexivity.
Defined.

Lemma last_is_digit_space (pre : string) :
  last_is_digit (chars (pre ++ " ")) = false.
Proof.
  rewrite chars_app. unfold last_is_digit.
  rewrite rev_app_distr. reflexivity.
Qed.

Lemma ends_in_time_line (pre h m s p : string) :
  time_field h -> time_field m -> time_field s -> period_token p ->
  ends_in_time (pre ++ h ++ ":" ++ m ++ ":" ++ s ++ " " ++ p).
Proof.
  intros Hh Hm Hs Hp.
  exists (chars pre), (chars h), (chars m), (chars s), (chars p), [].
  rewrite !chars_app, app_nil_r. simpl. auto 10.
Qed.

Lemma mk_time_minute_out_of_range (h m s : Z) :
  (59 < m)%Z -> Datetime.mk_time h m s = Raise ValueError.
Proof.
  intros Hm. unfold Datetime.mk_time.
  destruct (Z.leb_spec m 59) as [Hle|_]; [lia|].
  now rewrite andb_false_r.
Qed.

(** The last character of a text that stops on a digit. *)
Lemma last_is_digit_inv (X : list ascii) :
  last_is_digit X = true ->
  exists X' c, X = (X' ++ [c])%list /\ cls_match digit c = true.
Proof.
  unfold last_is_digit. intros H.
  destruct (rev X) as [|c r] eqn:R; [discriminate|].
  exists (rev r), c. split; [|assumption].
  apply (f_equal (@rev ascii)) in R. rewrite rev_involutive in R.
  exact R.
Qed.

(** C10.  Time extraction is not total on the lines that match: every
    line ending in [1:99:00 AM] matches and the construction of the time
    raises, and so does every line ending in [13:00:00 PM], whose hour
    becomes 25; the period token is any run of the letters A, M and P, so
    that a line ending in [1:00:00 MAP] matches as well. *)
Theorem parse_time_info_not_total :
  (forall pre : string,
      ends_in_time (pre ++ "1:99:00 AM")
      /\ parse_time_info (pre ++ "1:99:00 AM") = Raise ValueError)
  /\ (forall pre : string,
         ends_in_time (pre ++ "13:00:00 PM")
         /\ parse_time_info (pre ++ "13:00:00 PM") = Raise ValueError)
  /\ (forall pre : string,
         search 4 time_re (pre ++ " 1:00:00 MAP")
         = Some (time_groups (chars "1") (chars "00") (chars "00")
                             (chars "MAP"))).
Proof.
  assert (D1 : time_field "1") by (split; [repeat constructor|simpl; lia]).
  assert (D13 : time_field "13") by (split; [repeat constructor|simpl; lia]).
  assert (D00 : time_field "00") by (split; [repeat constructor|simpl; lia]).
  assert (D99 : time_field "99") by (split; [repeat constructor|simpl; lia]).
  assert (PA : period_token "AM") by (split; [repeat constructor|simpl; lia]).
  assert (PP : period_token "PM") by (split; [repeat constructor|simpl; lia]).
  assert (PM : period_token "MAP") by (split; [repeat constructor|simpl; lia]).
  assert (Sp : forall pre tail : string,
             pre ++ String " " tail = (pre ++ " ") ++ tail).
  { intros pre tail. induction pre as [|c pre IH]; simpl; [reflexivity|].
    now rewrite IH. }
  split; [|split].
  - intros pre. split.
    + apply (ends_in_time_line pre D1 D99 D00 PA).
    + destruct (last_is_digit (chars pre)) eqn:L.
      * apply last_is_digit_inv in L as (X & c & EX & Hc).
        assert (S : search 4 time_re (pre ++ "1:99:00 AM")
                    = Some (time_groups [c; "1"%char] (chars "99")
                                        (chars "00") (chars "AM"))).
        { unfold search. rewrite chars_app, EX, <- app_assoc.
          refine (@TimeFacts.search_time X [c; "1"%char] (chars "99")
                    (chars "00") (chars "AM") _ D99 D00 PA
                    (or_introl eq_refl)).
          split; [repeat constructor; assumption|simpl; lia]. }
        apply parse_time_info_groups in S; try assumption;
          [|split; [repeat constructor; assumption|simpl; lia]].
        rewrite S. cbv zeta.
        rewrite mk_time_minute_out_of_range; [reflexivity|].
        vm_compute. reflexivity.
      * pose proof (search_time_line pre D1 D99 D00 PA (or_intror L)) as S.
        apply (@parse_time_info_groups _ _ _ _ _ D1 D99 D00) in S. exact S.
  - intros pre. split.
    + apply (ends_in_time_line pre D13 D00 D00 PP).
    + pose proof (search_time_line pre D13 D00 D00 PP
                    (or_introl eq_refl)) as S.
      apply (@parse_time_info_groups _ _ _ _ _ D13 D00 D00) in S. exact S.
  - intros pre. rewrite Sp.
    apply (search_time_line (pre ++ " ") D1 D00 D00 PM
             (or_intror (last_is_digit_space pre))).
Qed.

(** ** Date extraction *)

Module DateFacts.

Import ReSpec ReFacts.
Local Open Scope list_scope.

Lemma date_re_inv s s' g :
  matches date_re s (repeat None 3) s' g ->
  exists mo d y,
    g = [Some mo; Some d; Some y]
    /\ all_in letter mo /\ (1 <= List.length mo)%nat
    /\ all_in digit d /\ (1 <= List.length d <= 2)%nat
    /\ all_in digit y /\ List.length y = 4%nat.
Proof.
  cbv [date_re seq text lit chars list_ascii_of_string between plus].
  intros H. TimeFacts.inv_matches.
  rewrite !consumed_app. simpl in *.
  eexists _, _, _. split; [reflexivity|].
  repeat split; auto; lia.
Qed.

Lemma search_date_groups line g :
  search 3 date_re line = Some g ->
  exists mo d y,
    g = [Some mo; Some d; Some y]
    /\ all_in letter mo /\ (1 <= List.length mo)%nat
    /\ all_in digit d /\ (1 <= List.length d <= 2)%nat
    /\ all_in digit y /\ List.length y = 4%nat.
Proof.
  unfold search. intros H.
  apply TimeFacts.search_from_some in H as (pre & t & _ & H).
  unfold match_here in H.
  apply rmatch_sound in H as (s' & g' & H & E). injection E as ->.
  now apply date_re_inv in H.
Qed.

Lemma getitem_missing (d : list (string * Z)) (key : string) :
  (forall v, ~ In (key, v) d) -> getitem d key = Raise KeyError.
Proof.
  induction d as [|[k v] d IH]; intros H; simpl; [reflexivity|].
  destruct (String.eqb_spec k key) as [->|N].
  - exfalso. apply (H v). now left.
  - apply IH. intros v' Hin. apply (H v'). now right.
Qed.

(** The conversions of the day and of the year return: the pattern gives
    them at most two and exactly four digits. *)
Lemma parse_date_info_groups line mo d y :
  (List.length d <= 2)%nat -> List.length y = 4%nat ->
  search 3 date_re line = Some [Some mo; Some d; Some y] ->
  parse_date_info line
  = (month <- getitem MONTHS (of_chars (lower mo)) ;;
     v <- Datetime.mk_date (decimal y) month (decimal d) ;;
     Ok (Some v)).
Proof.
  intros Hd Hy S. unfold parse_date_info. rewrite S.
  cbn [bind group_text group nth].
  rewrite (@int_short y) by lia. cbn [bind].
  destruct (getitem MONTHS (of_chars (lower mo))); cbn [bind];
    [|reflexivity].
  rewrite (@int_short d) by lia. reflexivity.
Qed.

End DateFacts.

(** C7.  When the date pattern matches and the month it captures is not a
    key of [MONTHS], date extraction raises [KeyError]; the date is absent
    exactly when the pattern does not match. *)
Theorem parse_date_info_unknown_month :
  (forall (line : string) (g : captures) (mo : list ascii),
      search 3 date_re line = Some g ->
      group 1 g = Some mo ->
      ~ known_month mo ->
      parse_date_info line = Raise KeyError)
  /\ (forall line : string,
         parse_date_info line = Ok None <-> search 3 date_re line = None).
Proof.
  split.
  - intros line g mo S G NK.
    destruct (DateFacts.search_date_groups _ S)
      as (mo' & d & y & -> & _ & _ & _ & Ld & _ & Ly).
    simpl in G. injection G as ->.
    rewrite (@DateFacts.parse_date_info_groups line mo d y) by (lia || auto).
    rewrite DateFacts.getitem_missing; [reflexivity|].
    intros v Hin. apply NK. now exists v.
  - intros line. split.
    + destruct (search 3 date_re line) as [g|] eqn:S;
        [|intros _; reflexivity].
      destruct (DateFacts.search_date_groups _ S)
        as (mo & d & y & -> & _ & _ & _ & Ld & _ & Ly).
      rewrite (@DateFacts.parse_date_info_groups line mo d y)
        by (lia || auto).
      destruct (getitem MONTHS (of_chars (lower mo))); cbn [bind];
        [|discriminate].
      destruct (Datetime.mk_date _ _ _); discriminate.
    + intros E. unfold parse_date_info. now rewrite E.
Qed.

Lemma parse_date_info_unknown_month_witness :
  parse_date_info
    "- Your Note on page 3 | Added on Sunday, Smarch 27, 2023 1:37:08 PM"
  = Raise KeyError
  /\ (parse_date_info "- Your Note on page 3" = Ok None
      <-> search 3 date_re "- Your Note on page 3" = None).
Proof.
  split.
  - apply (proj1 parse_date_info_unknown_month _
             [Some (chars "Smarch"); Some (chars "27"); Some (chars "2023")]
             (chars "Smarch")).
    + reflexivity.
    + reflexivity.
    + intros [v Hin]. simpl in Hin.
      repeat (destruct Hin as [Hin|Hin]; [discriminate|]). exact Hin.
  - apply (proj2 parse_date_info_unknown_month).
Defined.

(** ** The loop over the lines *)

Module LoopFacts.

Import Group.
Local Open Scope list_scope.

Lemma for_lines_app (a b : list string) (st : Locals.t) :
  for_lines (a ++ b) st = (st' <- for_lines a st ;; for_lines b st').
Proof.
  revert st. induction a as [|l a IH]; intros st; simpl; [reflexivity|].
  destruct (loop_body st l); simpl; auto.
Qed.

Lemma kind_cases (rc : RawClip.t) :
  get_rawclip_type rc = "highlight"%string
  \/ get_rawclip_type rc = "note"%string
  \/ get_rawclip_type rc = "bookmark"%string
  \/ get_rawclip_type rc = "unparsed"%string.
Proof.
  unfold get_rawclip_type.
  repeat match goal with
         | |- context [if ?b then _ else _] => destruct b
         end; auto.
Qed.

Lemma parse_rawclip_type (rc : RawClip.t) (c : Clip.t) :
  parse_rawclip rc = Ok c -> Clip.type c = get_rawclip_type rc.
Proof.
  unfold parse_rawclip.
  destruct (parse_page_info _); [|discriminate].
  destruct (parse_location_info _); [|discriminate].
  destruct (parse_date_info _); [|discriminate].
  destruct (parse_time_info _); [|discriminate].
  cbn [bind]. intros H. injection H as <-. reflexivity.
Qed.

(** Five lines read from between two groups: the clip is built once, on
    the fifth line, and appended to the list of its type. *)
Lemma group_step (st : Locals.t) (g : list string) :
  fresh st -> five_lines g ->
  for_lines g st
  = (clip <- parse_rawclip (rawclip_of g) ;; Ok (after_group st g clip)).
Proof.
  intros [Hc Hcur] Hg.
  destruct st as [hs ns bs us cur lc c]. simpl in Hc, Hcur. subst c cur.
  destruct g as [|l1 [|l2 [|l3 [|l4 [|l5 [|l6 g]]]]]]; try discriminate.
  cbn -[parse_rawclip rawclip_of removesuffix].
  change (RawClip.mk _ _ _ _ _) with (rawclip_of [l1; l2; l3; l4; l5]).
  destruct (parse_rawclip (rawclip_of [l1; l2; l3; l4; l5]))
    as [clip|e] eqn:P; cbn [bind]; [|reflexivity].
  apply parse_rawclip_type in P.
  unfold after_group, unparsed_of, kind, has_type.
  cbn [filter Locals.highlights Locals.notes Locals.bookmarks
       Locals.unparsed Locals.line_cnt].
  rewrite P.
  destruct (kind_cases (rawclip_of [l1; l2; l3; l4; l5])) as [K|[K|[K|K]]];
    rewrite K; cbn -[Z.add]; rewrite ?app_nil_r;
    replace (lc + 1 + 1 + 1 + 1 + 1)%Z with (lc + 5)%Z by lia;
    replace (lc + 1 + 1 + 1 + 1)%Z with (lc + 4)%Z by lia;
    reflexivity.
Qed.

Lemma fresh_after_group st g clip : fresh (after_group st g clip).
Proof. split; reflexivity. Qed.

Lemma after_groups_nil st : fresh st -> after_groups st [] [] = st.
Proof.
  intros [Hc Hcur]. destruct st as [hs ns bs us cur lc c].
  simpl in Hc, Hcur. subst. unfold after_groups. simpl.
  rewrite !app_nil_r. f_equal. lia.
Qed.

Lemma after_groups_cons st g gs c clips :
  after_groups (after_group st g c) gs clips
  = after_groups st (g :: gs) (c :: clips).
Proof.
  unfold after_groups, after_group.
  cbn [Locals.highlights Locals.notes Locals.bookmarks Locals.unparsed
       Locals.line_cnt].
  rewrite <- !app_assoc.
  cbn [filter unparsed_of List.length]. rewrite !app_nil_r.
  f_equal.
  - destruct (has_type "highlight" c); reflexivity.
  - destruct (has_type "note" c); reflexivity.
  - destruct (has_type "bookmark" c); reflexivity.
  - lia.
Qed.

(** A run of whole groups, each of which yields a clip. *)
Lemma run_groups (gs : list (list string)) :
  forall (clips : list Clip.t) (st : Locals.t),
    fresh st -> Forall five_lines gs -> clips_of gs clips ->
    for_lines (List.concat gs) st = Ok (after_groups st gs clips).
Proof.
  induction gs as [|g gs IH]; intros clips st Hst H5 Hc.
  - inversion Hc; subst. simpl. now rewrite after_groups_nil.
  - inversion Hc as [|? c ? clips' Hg Hc']; subst.
    inversion H5 as [|? ? Hg5 H5']; subst.
    cbn [List.concat]. rewrite for_lines_app, group_step, Hg by assumption.
    cbn [bind].
    rewrite (IH clips'); auto using fresh_after_group.
    now rewrite after_groups_cons.
Qed.

(** Whole groups leave the loop between two groups, or raise. *)
Lemma run_whole (k : nat) :
  forall (ls : list string) (st : Locals.t),
    List.length ls = (5 * k)%nat -> fresh st ->
    (exists e, for_lines ls st = Raise e)
    \/ (exists st', for_lines ls st = Ok st' /\ fresh st').
Proof.
  induction k as [|k IH]; intros ls st Hl Hst.
  - destruct ls; [|discriminate]. right. now exists st.
  - destruct ls as [|l1 [|l2 [|l3 [|l4 [|l5 ls]]]]];
      try (simpl in Hl; lia).
    change (l1 :: l2 :: l3 :: l4 :: l5 :: ls)
      with ([l1; l2; l3; l4; l5] ++ ls).
    rewrite for_lines_app, group_step by (auto; reflexivity).
    destruct (parse_rawclip (rawclip_of [l1; l2; l3; l4; l5])) as [c|e];
      cbn [bind]; [|left; now exists e].
    apply IH; [simpl in Hl; lia|apply fresh_after_group].
Qed.

(** Fewer than five lines are only collected. *)
Lemma run_partial (tl : list string) (st : Locals.t) :
  (List.length tl < 5)%nat -> fresh st ->
  exists st', for_lines tl st = Ok st' /\ buckets st' = buckets st.
Proof.
  intros Hl [Hc Hcur].
  destruct st as [hs ns bs us cur lc c]. simpl in Hc, Hcur. subst c cur.
  destruct tl as [|l1 [|l2 [|l3 [|l4 [|l5 tl]]]]];
    try (simpl in Hl; lia);
    eexists; split; reflexivity.
Qed.

End LoopFacts.

Import Group.

(** C5.  A trailing group of fewer than five lines contributes nothing:
    the result on any input is the result on the input cut after its last
    whole group of five lines, and fewer than five lines alone give the
    empty extraction, without an error. *)
Theorem parse_rawclips_file_drops_partial_group :
  (forall f : list string,
      parse_rawclips_file f
      = parse_rawclips_file (firstn (5 * (List.length f / 5)) f))
  /\ (forall tl : list string,
         (List.length tl < 5)%nat ->
         parse_rawclips_file tl = Ok (Extraction.mk [] [] [] [])).
Proof.
  split.
  - intros f. set (n := (5 * (List.length f / 5))%nat).
    assert (Hn : (n <= List.length f)%nat)
      by (apply Nat.Div0.mul_div_le).
    assert (Hfull : List.length (firstn n f) = (5 * (List.length f / 5))%nat)
      by (rewrite firstn_length_le; auto).
    assert (Htl : (List.length (skipn n f) < 5)%nat).
    { rewrite length_skipn. unfold n.
      pose proof (Nat.div_mod_eq (List.length f) 5).
      pose proof (Nat.mod_upper_bound (List.length f) 5). lia. }
    rewrite <- (firstn_skipn n f) at 1.
    unfold parse_rawclips_file. rewrite LoopFacts.for_lines_app.
    destruct (LoopFacts.run_whole _ (firstn n f) Hfull
                (conj eq_refl eq_refl : fresh Locals.init))
      as [[e ->]|(st' & -> & Hst')]; [reflexivity|].
    cbn [bind].
    destruct (LoopFacts.run_partial (skipn n f) Htl Hst')
      as (st'' & -> & Hb).
    cbn [bind]. unfold buckets in Hb. now rewrite Hb.
  - intros tl Htl. unfold parse_rawclips_file.
    destruct (LoopFacts.run_partial tl Htl
                (conj eq_refl eq_refl : fresh Locals.init))
      as (st' & -> & Hb).
    cbn [bind]. unfold buckets in Hb. now rewrite Hb.
Qed.

Lemma parse_rawclips_file_drops_partial_group_witness :
  parse_rawclips_file
    [ "Book" ++ LF; "- Your Note on page 3" ++ LF; LF; "text" ++ LF ]
  = Ok (Extraction.mk [] [] [] []).
Proof.
  apply (proj2 parse_rawclips_file_drops_partial_group). simpl. lia.
Defined.

(** ** Groups with a kind prefix *)

Lemma extractable_clip (g : list string) :
  extractable g -> exists c, parse_rawclip (rawclip_of g) = Ok c.
Proof.
  intros ([p Hp] & [l Hl] & [d Hd] & [t Ht]). unfold parse_rawclip.
  rewrite Hp, Hl, Hd, Ht. cbn [bind]. eauto.
Qed.

Lemma extractable_clips (gs : list (list string)) :
  Forall extractable gs -> exists clips, clips_of gs clips.
Proof.
  induction 1 as [|g gs Hg _ [clips IH]].
  - exists []. constructor.
  - destruct (extractable_clip Hg) as [c Hc].
    exists (c :: clips). now constructor.
Qed.

Lemma unparsed_of_valid (gs : list (list string)) :
  Forall valid_prefix gs -> forall n, unparsed_of n gs = [].
Proof.
  induction 1 as [|g gs Hg _ IH]; intros n; simpl; [reflexivity|].
  destruct (String.eqb_spec (kind g) "unparsed") as [E|_];
    [contradiction|]. apply IH.
Qed.

Lemma clips_partition (gs : list (list string)) (clips : list Clip.t) :
  Forall valid_prefix gs -> clips_of gs clips ->
  (List.length (filter (has_type "highlight") clips)
   + List.length (filter (has_type "note") clips)
   + List.length (filter (has_type "bookmark") clips)
   = List.length gs)%nat.
Proof.
  intros Hv Hc. induction Hc as [|g c gs clips Hg _ IH].
  - reflexivity.
  - inversion Hv as [|? ? Hvg Hv']; subst.
    specialize (IH Hv').
    apply LoopFacts.parse_rawclip_type in Hg.
    unfold valid_prefix, kind in Hvg.
    cbn [filter].
    assert (Ht : forall t, has_type t c
                           = String.eqb (get_rawclip_type (rawclip_of g)) t)
      by (intros t; unfold has_type; now rewrite Hg).
    rewrite !Ht.
    destruct (LoopFacts.kind_cases (rawclip_of g)) as [K|[K|[K|K]]];
      try contradiction; rewrite K;
      repeat match goal with
             | |- context [String.eqb ?a ?b] =>
                 let v := eval vm_compute in (String.eqb a b) in
                 change (String.eqb a b) with v
             end;
      cbn [List.length]; lia.
Qed.

(** C4, as the code has it.  On an input made of N groups of five lines
    whose metadata lines carry a kind prefix and on which page, location,
    date and time extraction all return, parsing gives one clip per group:
    the three lists hold, in input order, the clips of their type, which
    is the type the group's prefix names; they hold N clips together and
    no group is unparsed. *)
Theorem parse_rawclips_file_groups (gs : list (list string)) :
  Forall five_lines gs -> Forall valid_prefix gs -> Forall extractable gs ->
  exists clips : list Clip.t,
    Forall2 (fun g c => parse_rawclip (rawclip_of g) = Ok c
                        /\ Clip.type c = kind g) gs clips
    /\ parse_rawclips_file (List.concat gs)
       = Ok (Extraction.mk (filter (has_type "highlight") clips)
                           (filter (has_type "note") clips)
                           (filter (has_type "bookmark") clips)
                           [])
    /\ (List.length (filter (has_type "highlight") clips)
        + List.length (filter (has_type "note") clips)
        + List.length (filter (has_type "bookmark") clips)
        = List.length gs)%nat.
Proof.
  intros H5 Hv He.
  destruct (extractable_clips He) as [clips Hc].
  exists clips. split; [|split].
  - clear -Hc. induction Hc; constructor; auto.
    split; [assumption|now apply LoopFacts.parse_rawclip_type].
  - unfold parse_rawclips_file.
    rewrite (LoopFacts.run_groups (clips := clips)); auto;
      [|split; reflexivity].
    cbn [bind]. unfold after_groups. simpl.
    now rewrite unparsed_of_valid.
  - now apply clips_partition.
Qed.

Lemma parse_rawclips_file_groups_witness :
  exists clips : list Clip.t,
    parse_rawclips_file
      [ "Common LISP (David S. Touretzky)" ++ LF;
        "- Your Highlight on page 46 | Location 694-694 | Added on Sunday, August 27, 2023 1:37:08 PM" ++ LF;
        LF; "The length of a list" ++ LF; "==========" ++ LF;
        "Common LISP (David S. Touretzky)" ++ LF;
        "- Your Note on page 47 | Location 700 | Added on Sunday, August 27, 2023 1:40:00 PM" ++ LF;
        LF; "check this" ++ LF; "==========" ++ LF ]
    = Ok (Extraction.mk (filter (has_type "highlight") clips)
                        (filter (has_type "note") clips)
                        (filter (has_type "bookmark") clips) [])
    /\ List.length clips = 2%nat.
Proof.
  destruct (@parse_rawclips_file_groups
    [ [ "Common LISP (David S. Touretzky)" ++ LF;
        "- Your Highlight on page 46 | Location 694-694 | Added on Sunday, August 27, 2023 1:37:08 PM" ++ LF;
        LF; "The length of a list" ++ LF; "==========" ++ LF ];
      [ "Common LISP (David S. Touretzky)" ++ LF;
        "- Your Note on page 47 | Location 700 | Added on Sunday, August 27, 2023 1:40:00 PM" ++ LF;
        LF; "check this" ++ LF; "==========" ++ LF ] ])
    as (clips & Hc & Hp & _).
  - repeat constructor.
  - repeat constructor; discriminate.
  - repeat constructor; eexists; vm_compute; reflexivity.
  - exists clips. split; [exact Hp|].
    apply Forall2_length in Hc. now rewrite <- Hc.
Defined.

(** C4 as stated fails: a group of five lines with the Highlight prefix
    and an unknown month name makes the whole parse raise. *)
Lemma parse_rawclips_file_groups_counterexample :
  let g := [ "Book" ++ LF;
             "- Your Highlight on page 1 | Added on Sunday, Smarch 27, 2023 1:37:08 PM" ++ LF;
             LF; "text" ++ LF; "==========" ++ LF ] in
  five_lines g
  /\ kind g = "highlight"
  /\ parse_rawclips_file (List.concat [g]) = Raise KeyError.
Proof.
  vm_compute. repeat split.
Qed.

(** ** Unparsed groups *)

(** Every unparsed entry of a run of groups carries the number of lines
    read before the fifth line of its group. *)
Lemma unparsed_of_line_number (gs : list (list string)) :
  forall (n : Z) (r : RawClip.t) (k : Z),
    In (r, k) (unparsed_of n gs) ->
    exists (i : nat) (g : list string),
      nth_error gs i = Some g /\ r = rawclip_of g
      /\ kind g = "unparsed"
      /\ k = (n + 5 * (Z.of_nat i + 1) - 1)%Z.
Proof.
  induction gs as [|g gs IH]; intros n r k Hin; simpl in Hin; [contradiction|].
  apply in_app_or in Hin as [Hin|Hin].
  - destruct (String.eqb_spec (kind g) "unparsed") as [K|_];
      [|contradiction].
    destruct Hin as [Hin|[]]. injection Hin as <- <-.
    exists 0%nat, g. repeat split; auto. simpl. lia.
  - destruct (IH _ _ _ Hin) as (i & g' & Hn & Hr & Hk & Hl).
    exists (S i), g'. repeat split; auto. lia.
Qed.

(** C3, on the code.  A first group with the Highlight prefix, then a
    group whose metadata line has no kind prefix: the unparsed entry is
    paired with 9, while the delimiter line of that group is line 10 of
    the input. *)
Theorem unparsed_line_number_one_short :
  parse_rawclips_file
    [ "Book" ++ LF; "- Your Highlight on page 46" ++ LF; LF;
      "text" ++ LF; "==========" ++ LF;
      "Book" ++ LF; "Highlight on page 47" ++ LF; LF;
      "more" ++ LF; "==========" ++ LF ]
  = Ok (Extraction.mk
          [ Clip.mk "highlight" "Book" [46%Z] [] None None "text" ]
          [] []
          [ (RawClip.mk "Book" "Highlight on page 47" EmptyString "more"
                        "==========", 9%Z) ])
  /\ print_parsing_errors
       [ (RawClip.mk "Book" "Highlight on page 47" EmptyString "more"
                     "==========", 9%Z) ]
     = [ "Got an error while processing your Kindle clips file.";
         "The clip ending at line 9 couldn't be parsed:";
         "    > Book";
         "ERR > Highlight on page 47";
         "    > ";
         "    > more" ].
Proof.
  split; vm_compute; reflexivity.
Qed.

(** C2 as stated fails: the metadata line has no kind prefix, the date
    pattern matches it with an unknown month name, and the parse raises
    instead of filing the record as unparsed. *)
Lemma unparsed_group_counterexample :
  let g := [ "Book" ++ LF;
             "Highlight on page 1 | Added on Sunday, Smarch 27, 2023 1:37:08 PM" ++ LF;
             LF; "text" ++ LF; "==========" ++ LF ] in
  get_rawclip_type (rawclip_of g) = "unparsed"
  /\ parse_rawclip (rawclip_of g) = Raise KeyError
  /\ parse_rawclips_file g = Raise KeyError.
Proof.
  vm_compute. repeat split.
Qed.

(** C2, as the code has it.  For a group whose metadata line is
    classified unparsed, read from between two groups, the fields are
    still extracted: an error of the page extraction, or else of the
    location, the date or the time extraction, in that order, is the error
    of the loop; when the four return, what they extracted is dropped and
    the raw clip joins the unparsed list, paired with a line number, the
    three lists of clips being left as they were. *)
Theorem unparsed_group_still_extracted (st : Locals.t) (g : list string) :
  fresh st -> five_lines g -> kind g = "unparsed" ->
  let info := RawClip.info (rawclip_of g) in
  (forall e, parse_page_info info = Raise e -> for_lines g st = Raise e)
  /\ (forall p e,
         parse_page_info info = Ok p -> parse_location_info info = Raise e ->
         for_lines g st = Raise e)
  /\ (forall p l e,
         parse_page_info info = Ok p -> parse_location_info info = Ok l ->
         parse_date_info info = Raise e ->
         for_lines g st = Raise e)
  /\ (forall p l d e,
         parse_page_info info = Ok p -> parse_location_info info = Ok l ->
         parse_date_info info = Ok d -> parse_time_info info = Raise e ->
         for_lines g st = Raise e)
  /\ (forall p l d t,
         parse_page_info info = Ok p -> parse_location_info info = Ok l ->
         parse_date_info info = Ok d -> parse_time_info info = Ok t ->
         exists (st' : Locals.t) (n : Z),
           for_lines g st = Ok st'
           /\ fresh st'
           /\ buckets st'
              = Extraction.mk (Locals.highlights st) (Locals.notes st)
                              (Locals.bookmarks st)
                              (Locals.unparsed st ++ [(rawclip_of g, n)])).
Proof.
  intros Hst H5 K info.
  rewrite (LoopFacts.group_step Hst H5).
  unfold parse_rawclip. fold info.
  split; [|split; [|split; [|split]]].
  - intros e ->. reflexivity.
  - intros p e -> ->. reflexivity.
  - intros p l e -> -> ->. reflexivity.
  - intros p l d e -> -> -> ->. reflexivity.
  - intros p l d t -> -> -> ->. cbn [bind].
    eexists _, _. split; [reflexivity|].
    split; [apply LoopFacts.fresh_after_group|].
    unfold buckets, after_group, has_type.
    cbn [Locals.highlights Locals.notes Locals.bookmarks Locals.unparsed
         Clip.type filter unparsed_of].
    unfold kind in K. rewrite K. unfold kind. rewrite K.
    cbn. rewrite !app_nil_r. reflexivity.
Qed.

Lemma unparsed_group_still_extracted_witness :
  exists (st' : Locals.t) (n : Z),
    for_lines [ "Book" ++ LF; "Highlight on page 47" ++ LF; LF;
                "more" ++ LF; "==========" ++ LF ] Locals.init
    = Ok st'
    /\ fresh st'
    /\ buckets st'
       = Extraction.mk [] [] []
           ([] ++ [ (rawclip_of [ "Book" ++ LF; "Highlight on page 47" ++ LF;
                                  LF; "more" ++ LF; "==========" ++ LF ],
                     n) ]).
Proof.
  refine (proj2 (proj2 (proj2 (proj2
    (@unparsed_group_still_extracted Locals.init
       [ "Book" ++ LF; "Highlight on page 47" ++ LF; LF;
         "more" ++ LF; "==========" ++ LF ] _ _ _))))
    [47%Z] [] None None _ _ _ _).
  - split; reflexivity.
  - reflexivity.
  - reflexivity.
  - reflexivity.
  - reflexivity.
  - reflexivity.
  - reflexivity.
Defined.

(** The same, for any run of whole groups that all yield a clip: an
    unparsed entry is paired with one less than the position, counted
    from 1, of its group's fifth line. *)
Lemma unparsed_entries_line_numbers (gs : list (list string))
      (clips : list Clip.t) :
  Forall five_lines gs -> clips_of gs clips ->
  exists ext : Extraction.t,
    parse_rawclips_file (List.concat gs) = Ok ext
    /\ forall r k,
        In (r, k) (Extraction.unparsed ext) ->
        exists (i : nat) (g : list string),
          nth_error gs i = Some g /\ r = rawclip_of g
          /\ k = (5 * (Z.of_nat i + 1) - 1)%Z.
Proof.
  intros H5 Hc. unfold parse_rawclips_file.
  rewrite (LoopFacts.run_groups (clips := clips)); auto;
    [|split; reflexivity].
  cbn [bind]. eexists; split; [reflexivity|].
  intros r k Hin. simpl in Hin.
  apply unparsed_of_line_number in Hin as (i & g & Hn & Hr & _ & Hk).
  exists i, g. repeat split; auto.
Qed.

(** ** The pretty-printer of pages and locations *)

Local Open Scope string_scope.


Lemma string_app_assoc (a b c : string) : (a ++ b) ++ c = a ++ (b ++ c).
Proof.
  induction a as [|x a IH]; simpl; [reflexivity|]. now rewrite IH.
Qed.





(** ** The formatters *)

(** C9, on the code.  The kind header of a clip's block in the plain-text
    output is the text form of the method [capitalize] of the clip's type,
    followed by a colon; it is not the capitalised type. *)
Theorem text_formatter_kind_header (id : string -> N) :
  let clip := Clip.mk "highlight" "Book" [46%Z] [694%Z; 694%Z]
                      (Some (Datetime.Date 2023 8 27))
                      (Some (Datetime.Time 13 37 8)) "text" in
  let rule := repeat_str "-" 70 in
  let header :=
    "<built-in method capitalize of str object at 0x"
    ++ HexadecimalString.NilZero.string_of_uint
         (N.to_hex_uint (id "highlight"))
    ++ ">:" in
  text_formatter id [clip]
  = join LF [ rule; "Source: Book"; "Page: 46"; "Location: 694-694";
              "Creation: 2023-08-27 | 13:37:08"; header; EmptyString;
              "text"; rule; rule; EmptyString ]
  /\ header <> capitalize (Clip.type clip) ++ ":"
  /\ capitalize (Clip.type clip) ++ ":" = "Highlight:".
Proof.
  cbv zeta. split; [|split].
  - unfold text_formatter, text_items, str_capitalize_method.
    cbn -[HexadecimalString.NilZero.string_of_uint N.to_hex_uint].
    rewrite !string_app_assoc. reflexivity.
  - discriminate.
  - reflexivity.
Qed.

(** C1, on the code.  Every object of the structured output has the seven
    fields [source], [page], [location], [date], [time], [type] and
    [content], in this order, and its [time] field holds the clip's source;
    for a clip of the book [Book] made at 13:37:08 the output reads
    [Book] where the time is expected. *)
Theorem json_formatter_time_is_source :
  (forall clip : Clip.t,
      map fst (Json.fields (json_object clip))
      = ["source"; "page"; "location"; "date"; "time"; "type"; "content"]
      /\ Json.get "time" (Json.fields (json_object clip))
         = Some (Json.JStr (Clip.source clip)))
  /\ (let clip := Clip.mk "highlight" "Book" [46%Z] [694%Z; 694%Z]
                          (Some (Datetime.Date 2023 8 27))
                          (Some (Datetime.Time 13 37 8)) "text" in
      let q s := Json.QUOTE ++ s ++ Json.QUOTE in
      Datetime.str_option Datetime.str_time (Clip.time clip) = "13:37:08"
      /\ json_formatter [clip]
         = join LF
             [ "[";
               "    {";
               "        " ++ q "source" ++ ": " ++ q "Book" ++ ",";
               "        " ++ q "page" ++ ": [";
               "            46";
               "        ],";
               "        " ++ q "location" ++ ": [";
               "            694,";
               "            694";
               "        ],";
               "        " ++ q "date" ++ ": " ++ q "2023-08-27" ++ ",";
               "        " ++ q "time" ++ ": " ++ q "Book" ++ ",";
               "        " ++ q "type" ++ ": " ++ q "highlight" ++ ",";
               "        " ++ q "content" ++ ": " ++ q "text";
               "    }";
               "]" ]).
Proof.
  split.
  - intros clip. split; reflexivity.
  - cbv zeta. split; vm_compute; reflexivity.
Qed.

(** * Further properties *)

Import ReSpec ReFacts Field.

Local Open Scope list_scope.

(** ** The kind of a record *)

Lemma prefix_spec (p s : string) :
  String.prefix p s = true <-> exists rest, s = (p ++ rest)%string.
Proof.
  revert s. induction p as [|a p IH]; intros s.
  - split; [intros _; now exists s|intros _; destruct s; reflexivity].
  - destruct s as [|b s]; [split; [discriminate|intros [r H]; discriminate]|].
    cbn [String.prefix].
    destruct (Ascii.ascii_dec a b) as [->|N].
    + split; intros H.
      * apply IH in H as [r ->]. now exists r.
      * destruct H as [r H]. injection H as H. apply IH. now exists r.
    + split; [discriminate|]. intros [r H]. injection H as H _. congruence.
Qed.

(** X1.  The kind of a record is decided by the start of its metadata
    line alone, letter case included: it is highlight, note or bookmark
    exactly when the line starts with the corresponding prefix, and
    unparsed exactly when it starts with none of the three. *)
Theorem get_rawclip_type_prefix (rclip : RawClip.t) :
  let starts p := exists rest, RawClip.info rclip = (p ++ rest)%string in
  (get_rawclip_type rclip = "highlight" <-> starts "- Your Highlight")
  /\ (get_rawclip_type rclip = "note" <-> starts "- Your Note")
  /\ (get_rawclip_type rclip = "bookmark" <-> starts "- Your Bookmark")
  /\ (get_rawclip_type rclip = "unparsed"
      <-> ~ starts "- Your Highlight" /\ ~ starts "- Your Note"
          /\ ~ starts "- Your Bookmark").
Proof.
  cbv zeta. unfold get_rawclip_type, startswith.
  pose proof (prefix_spec "- Your Highlight" (RawClip.info rclip)) as PH.
  pose proof (prefix_spec "- Your Note" (RawClip.info rclip)) as PN.
  pose proof (prefix_spec "- Your Bookmark" (RawClip.info rclip)) as PB.
  assert (HN : (exists r, RawClip.info rclip = ("- Your Highlight" ++ r)%string) ->
               (exists r, RawClip.info rclip = ("- Your Note" ++ r)%string) -> False)
    by (intros [r E] [r' E']; rewrite E in E'; discriminate).
  assert (HB : (exists r, RawClip.info rclip = ("- Your Highlight" ++ r)%string) ->
               (exists r, RawClip.info rclip = ("- Your Bookmark" ++ r)%string) -> False)
    by (intros [r E] [r' E']; rewrite E in E'; discriminate).
  assert (NB : (exists r, RawClip.info rclip = ("- Your Note" ++ r)%string) ->
               (exists r, RawClip.info rclip = ("- Your Bookmark" ++ r)%string) -> False)
    by (intros [r E] [r' E']; rewrite E in E'; discriminate).
  destruct (String.prefix "- Your Highlight" (RawClip.info rclip));
    destruct (String.prefix "- Your Note" (RawClip.info rclip));
    destruct (String.prefix "- Your Bookmark" (RawClip.info rclip));
    intuition (try discriminate; auto).
Qed.

(** ** The fields a match yields *)

Module FieldFacts.

Lemma digit_val_range (a : ascii) :
  cls_match digit a = true -> (0 <= digit_val a <= 9)%Z.
Proof.
  destruct a as [[] [] [] [] [] [] [] []]; intros H; try discriminate H;
    vm_compute; split; discriminate.
Qed.

Lemma decimal_from_nonneg (w : list ascii) :
  all_in digit w ->
  forall acc : Z,
    (0 <= acc)%Z ->
    (0 <= fold_left (fun acc c => (10 * acc + digit_val c)%Z) w acc)%Z.
Proof.
  induction 1 as [|a w Ha _ IH]; intros acc Hacc; cbn [fold_left];
    [assumption|].
  apply IH. pose proof (digit_val_range _ Ha). lia.
Qed.

Lemma decimal_nonneg (w : list ascii) : all_in digit w -> (0 <= decimal w)%Z.
Proof. intros H. apply decimal_from_nonneg; [assumption|lia]. Qed.

Lemma decimal_from_below (w : list ascii) :
  all_in digit w ->
  forall acc : Z,
    (0 <= acc)%Z ->
    (fold_left (fun acc c => (10 * acc + digit_val c)%Z) w acc
     < (acc + 1) * 10 ^ Z.of_nat (List.length w))%Z.
Proof.
  induction 1 as [|a w Ha _ IH]; intros acc Hacc.
  - cbn [fold_left List.length Z.of_nat]. rewrite Z.pow_0_r. lia.
  - cbn [fold_left List.length].
    pose proof (digit_val_range _ Ha) as Hd.
    assert (H0 : (0 <= 10 * acc + digit_val a)%Z) by lia.
    specialize (IH _ H0).
    rewrite Nat2Z.inj_succ, Z.pow_succ_r by lia.
    assert (Hp : (0 < 10 ^ Z.of_nat (List.length w))%Z)
      by (apply Z.pow_pos_nonneg; lia).
    nia.
Qed.

(** A run of [n] digits is the decimal form of a number below [10 ^ n]. *)
Lemma decimal_below (w : list ascii) :
  all_in digit w -> (decimal w < 10 ^ Z.of_nat (List.length w))%Z.
Proof.
  intros H. pose proof (@decimal_from_below w H 0%Z (Z.le_refl 0)).
  unfold decimal. lia.
Qed.

(** What [int] gives on a run of digits. *)
Lemma int_digits (w : list ascii) :
  all_in digit w ->
  int w = Raise ValueError
  \/ exists n, int w = Ok n /\ (0 <= n < 10 ^ max_str_digits)%Z.
Proof.
  intros H. destruct (int_cases w) as [[E L]|[E _]]; [right|now left].
  exists (decimal w). split; [assumption|]. split.
  - now apply decimal_nonneg.
  - eapply Z.lt_le_trans; [now apply decimal_below|].
    apply Z.pow_le_mono_r; lia.
Qed.

Lemma page_re_inv s s' g :
  matches page_re s (repeat None 3) s' g ->
  (exists n m, all_in digit n /\ all_in digit m
               /\ g = [Some n; Some m; None])
  \/ (exists n, all_in digit n /\ g = [None; None; Some n]).
Proof.
  cbv [page_re seq text lit chars list_ascii_of_string opt plus].
  intros H. inversion H; subst; clear H; TimeFacts.inv_matches;
    rewrite ?consumed_app; simpl; eauto 7.
Qed.

Lemma location_re_inv s s' g :
  matches location_re s (repeat None 3) s' g ->
  (exists n m, all_in digit n /\ all_in digit m
               /\ g = [Some n; Some m; None])
  \/ (exists n, all_in digit n /\ g = [None; None; Some n]).
Proof.
  cbv [location_re seq text lit chars list_ascii_of_string opt plus].
  intros H. inversion H; subst; clear H; TimeFacts.inv_matches;
    rewrite ?consumed_app; simpl; eauto 7.
Qed.

Lemma search_sound n r line g :
  search n r line = Some g ->
  exists t s', matches r t (repeat None n) s' g.
Proof.
  unfold search. intros H.
  apply TimeFacts.search_from_some in H as (pre & t & _ & H).
  unfold match_here in H.
  apply rmatch_sound in H as (s' & g' & H & E). injection E as ->.
  eauto.
Qed.

Lemma ints_of_range (n m : list ascii) :
  ints_of_groups [Some n; Some m; None]
  = (a <- int n ;; b <- int m ;; Ok [a; b]).
Proof.
  cbn [ints_of_groups]. destruct (int n); cbn [bind]; [|reflexivity].
  destruct (int m); reflexivity.
Qed.

Lemma ints_of_single (n : list ascii) :
  ints_of_groups [None; None; Some n] = (a <- int n ;; Ok [a]).
Proof. cbn [ints_of_groups]. destruct (int n); reflexivity. Qed.

(** The groups of the page and location patterns convert to at most two
    numbers, unless a conversion raises. *)
Lemma ints_of_groups_cases g :
  (exists n m, all_in digit n /\ all_in digit m
               /\ g = [Some n; Some m; None])
  \/ (exists n, all_in digit n /\ g = [None; None; Some n]) ->
  ints_of_groups g = Raise ValueError
  \/ exists l, ints_of_groups g = Ok l /\ range_like l /\ within_limit l.
Proof.
  intros [(n & m & Hn & Hm & ->)|(n & Hn & ->)]; cbn [ints_of_groups].
  - destruct (int_digits Hn) as [->|(a & -> & Ha)]; [now left|].
    destruct (int_digits Hm) as [->|(b & -> & Hb)]; [now left|].
    right. exists [a; b]. split; [reflexivity|].
    split; [split; [simpl; lia|]|]; repeat constructor; lia.
  - destruct (int_digits Hn) as [->|(a & -> & Ha)]; [now left|].
    right. exists [a]. split; [reflexivity|].
    split; [split; [simpl; lia|]|]; repeat constructor; lia.
Qed.

Lemma parse_page_info_cases (line : string) :
  parse_page_info line = Raise ValueError
  \/ exists l, parse_page_info line = Ok l /\ range_like l /\ within_limit l.
Proof.
  unfold parse_page_info.
  destruct (search 3 page_re line) as [g|] eqn:S.
  - apply search_sound in S as (t & s' & H).
    apply ints_of_groups_cases. eapply page_re_inv; eassumption.
  - right. exists []. split; [reflexivity|].
    split; [split; [simpl; lia|]|]; constructor.
Qed.

Lemma parse_location_info_cases (line : string) :
  parse_location_info line = Raise ValueError
  \/ exists l,
       parse_location_info line = Ok l /\ range_like l /\ within_limit l.
Proof.
  unfold parse_location_info.
  destruct (search 3 location_re line) as [g|] eqn:S.
  - apply search_sound in S as (t & s' & H).
    apply ints_of_groups_cases. eapply location_re_inv; eassumption.
  - right. exists []. split; [reflexivity|].
    split; [split; [simpl; lia|]|]; constructor.
Qed.

Lemma mk_date_valid y m d v :
  Datetime.mk_date y m d = Ok v ->
  v = Datetime.Date y m d /\ valid_date v.
Proof.
  unfold Datetime.mk_date.
  destruct (_ && _) eqn:E; [|discriminate].
  intros H. injection H as <-. split; [reflexivity|].
  repeat (apply andb_prop in E as [E ?]).
  unfold valid_date. simpl. lia.
Qed.

Lemma mk_time_valid h m s v :
  Datetime.mk_time h m s = Ok v ->
  v = Datetime.Time h m s /\ valid_time v.
Proof.
  unfold Datetime.mk_time.
  destruct (_ && _) eqn:E; [|discriminate].
  intros H. injection H as <-. split; [reflexivity|].
  repeat (apply andb_prop in E as [E ?]).
  unfold valid_time. simpl. lia.
Qed.

End FieldFacts.

(** ** What building a clip can give *)

Module ClipFacts.

Import FieldFacts.

Lemma parse_date_info_cases (line : string) :
  parse_date_info line = Ok None
  \/ (exists d, parse_date_info line = Ok (Some d) /\ valid_date d)
  \/ parse_date_info line = Raise KeyError
  \/ parse_date_info line = Raise ValueError.
Proof.
  destruct (search 3 date_re line) as [g|] eqn:S;
    [|left; unfold parse_date_info; now rewrite S].
  destruct (DateFacts.search_date_groups _ S)
    as (mo & d & y & -> & _ & _ & _ & Ld & _ & Ly).
  rewrite (@DateFacts.parse_date_info_groups line mo d y) by (lia || auto).
  destruct (getitem MONTHS (of_chars (lower mo))) as [v|e] eqn:G; cbn [bind].
  - destruct (Datetime.mk_date (decimal y) v (decimal d)) as [dt|e] eqn:M;
      cbn [bind].
    + right; left. exists dt. split; [reflexivity|].
      now apply mk_date_valid in M.
    + right; right; right. unfold Datetime.mk_date in M.
      destruct (_ && _) in M; [discriminate|]. now injection M as <-.
  - right; right; left. clear -G.
    induction MONTHS as [|[k v] l IH]; simpl in G.
    + now injection G as <-.
    + destruct (String.eqb k _); [discriminate|auto].
Qed.

Lemma parse_time_info_cases (line : string) :
  parse_time_info line = Ok None
  \/ (exists t, parse_time_info line = Ok (Some t) /\ valid_time t)
  \/ parse_time_info line = Raise ValueError.
Proof.
  destruct (search 4 time_re line) as [g|] eqn:S.
  - destruct (TimeFacts.search_time_groups _ S)
      as [_ (h & m & s & p & -> & Hh & Hm & Hs)].
    rewrite (@parse_time_info_groups line h m s p Hh Hm Hs S). cbv zeta.
    destruct (Datetime.mk_time _ _ _) as [t|e] eqn:M; cbn [bind].
    + right; left. exists t. split; [reflexivity|].
      now apply mk_time_valid in M.
    + right; right. unfold Datetime.mk_time in M.
      destruct (_ && _) in M; [discriminate|]. now injection M as <-.
  - left. unfold parse_time_info. now rewrite S.
Qed.

Lemma parse_rawclip_ok (rc : RawClip.t) (c : Clip.t) :
  parse_rawclip rc = Ok c ->
  Clip.type c = get_rawclip_type rc
  /\ Clip.source c = RawClip.source rc
  /\ Clip.content c = RawClip.content rc
  /\ clip_ok c.
Proof.
  unfold parse_rawclip.
  destruct (parse_page_info_cases (RawClip.info rc))
    as [P|(p & P & Rp & _)]; rewrite P; cbn [bind]; [discriminate|].
  destruct (parse_location_info_cases (RawClip.info rc))
    as [L|(l & L & Rl & _)]; rewrite L; cbn [bind]; [discriminate|].
  destruct (parse_date_info_cases (RawClip.info rc))
    as [D|[(d & D & Vd)|[D|D]]]; rewrite D; cbn [bind]; try discriminate;
    destruct (parse_time_info_cases (RawClip.info rc))
      as [T|[(t & T & Vt)|T]]; rewrite T; cbn [bind]; try discriminate;
    intros H; injection H as <-; unfold clip_ok; simpl; auto 10.
Qed.

Lemma parse_rawclip_raises (rc : RawClip.t) (e : exn) :
  parse_rawclip rc = Raise e ->
  raised_in (RawClip.info rc) e /\ (e = KeyError \/ e = ValueError).
Proof.
  unfold parse_rawclip. intros H.
  destruct (parse_page_info_cases (RawClip.info rc)) as [P|(p & P & _)];
    rewrite P in H; cbn [bind] in H.
  { injection H as <-. split; [now left|auto]. }
  destruct (parse_location_info_cases (RawClip.info rc)) as [L|(l & L & _)];
    rewrite L in H; cbn [bind] in H.
  { injection H as <-. split; [right; left|auto].
    split; [now exists p|exact L]. }
  assert (Date : forall e', parse_date_info (RawClip.info rc) = Raise e' ->
                            e' = KeyError \/ e' = ValueError ->
                            e = e' -> raised_in (RawClip.info rc) e
                                      /\ (e = KeyError \/ e = ValueError)).
  { intros e' D K ->. split; [|exact K].
    right; right; left.
    split; [now exists p|split; [now exists l|exact D]]. }
  assert (Time : forall d, parse_date_info (RawClip.info rc) = Ok d ->
                           parse_time_info (RawClip.info rc) = Raise e ->
                           e = ValueError ->
                           raised_in (RawClip.info rc) e
                           /\ (e = KeyError \/ e = ValueError)).
  { intros d D T ->. split; [|now right].
    right; right; right.
    split; [now exists p|split; [now exists l|split; [now exists d|exact T]]]. }
  destruct (parse_date_info_cases (RawClip.info rc))
    as [D|[(d & D & Vd)|[D|D]]]; rewrite D in H; cbn [bind] in H;
    try (injection H as <-; apply (Date _ D); auto; fail);
    destruct (parse_time_info_cases (RawClip.info rc))
      as [T|[(t & T & Vt)|T]]; rewrite T in H; cbn [bind] in H;
    try discriminate;
    injection H as <-; exact (Time _ D T eq_refl).
Qed.

End ClipFacts.

Import FieldFacts ClipFacts.

(** ** What every extraction satisfies *)

Lemma collect_kept (st st' : Locals.t) (rc : RawClip.t) (c : Clip.t) :
  collect st rc c = Ok st' ->
  Clip.type c = get_rawclip_type rc -> clip_ok c ->
  typed (buckets st) /\ Forall clip_ok (clips (buckets st)) ->
  typed (buckets st') /\ Forall clip_ok (clips (buckets st')).
Proof.
  destruct st as [hs ns bs us cur lc n]. unfold collect.
  intros H Ht Hc [(Hh & Hn & Hb & Hu) Hk].
  unfold typed, clips, buckets in *. simpl in *.
  apply Forall_app in Hk as [Kh Kx]. apply Forall_app in Kx as [Kn Kb].
  destruct (String.eqb_spec (Clip.type c) "highlight") as [E|_];
    [|destruct (String.eqb_spec (Clip.type c) "note") as [E|_];
      [|destruct (String.eqb_spec (Clip.type c) "bookmark") as [E|_];
        [|destruct (String.eqb_spec (Clip.type c) "unparsed") as [E|_];
          [|discriminate]]]];
    injection H as <-; simpl;
    repeat split; auto;
    repeat (apply Forall_app; split); auto;
    repeat constructor; auto; simpl; congruence.
Qed.

Lemma loop_body_kept (st st' : Locals.t) (line : string) :
  loop_body st line = Ok st' ->
  typed (buckets st) /\ Forall clip_ok (clips (buckets st)) ->
  typed (buckets st') /\ Forall clip_ok (clips (buckets st')).
Proof.
  unfold loop_body. destruct (5 <=? Locals.cnt st)%Z.
  - destruct (item _ 0) as [l0|]; [|discriminate].
    destruct (item _ 1) as [l1|]; [|discriminate].
    destruct (item _ 2) as [l2|]; [|discriminate].
    destruct (item _ 3) as [l3|]; [|discriminate].
    cbn [bind].
    destruct (parse_rawclip _) as [c|] eqn:P; [|discriminate]. cbn [bind].
    destruct (collect st _ c) as [st1|] eqn:C; [|discriminate]. cbn [bind].
    intros H I. injection H as <-.
    apply parse_rawclip_ok in P as (Ht & _ & _ & Hc).
    exact (@collect_kept st st1 _ c C Ht Hc I).
  - intros H I. injection H as <-. exact I.
Qed.

Lemma for_lines_kept (f : list string) :
  forall st st' : Locals.t,
    for_lines f st = Ok st' ->
    typed (buckets st) /\ Forall clip_ok (clips (buckets st)) ->
    typed (buckets st') /\ Forall clip_ok (clips (buckets st')).
Proof.
  induction f as [|line f IH]; intros st st' H I; simpl in H.
  - now injection H as <-.
  - destruct (loop_body st line) as [st1|] eqn:B; [|discriminate].
    cbn [bind] in H. eapply IH; [exact H|].
    eapply loop_body_kept; eassumption.
Qed.

Lemma parse_rawclips_file_buckets (f : list string) (ext : Extraction.t) :
  parse_rawclips_file f = Ok ext ->
  exists st, for_lines f Locals.init = Ok st /\ ext = buckets st.
Proof.
  unfold parse_rawclips_file.
  destruct (for_lines f Locals.init) as [st|]; [|discriminate].
  cbn [bind]. intros H. injection H as <-. now exists st.
Qed.

(** X3.  Whatever the input, an extraction holds in each list the entries
    of that list's type, and every clip has at most two page numbers and
    two locations, none negative, a real calendar date and a real time of
    day. *)
Theorem extraction_typed_and_valid (f : list string) (ext : Extraction.t) :
  parse_rawclips_file f = Ok ext ->
  typed ext /\ Forall clip_ok (clips ext).
Proof.
  intros H. apply parse_rawclips_file_buckets in H as (st & H & ->).
  eapply for_lines_kept; [exact H|].
  repeat split; constructor.
Qed.

Lemma extraction_typed_and_valid_witness :
  typed (Extraction.mk
           [ Clip.mk "highlight" "Book" [46%Z] [] None None "text" ]
           [] []
           [ (RawClip.mk "Book" "Highlight on page 47" EmptyString "more"
                         "==========", 9%Z) ])
  /\ Forall clip_ok
       (clips (Extraction.mk
                 [ Clip.mk "highlight" "Book" [46%Z] [] None None "text" ]
                 [] []
                 [ (RawClip.mk "Book" "Highlight on page 47" EmptyString
                               "more" "==========", 9%Z) ])).
Proof.
  apply (@extraction_typed_and_valid
           [ "Book" ++ LF; "- Your Highlight on page 46" ++ LF; LF;
             "text" ++ LF; "==========" ++ LF;
             "Book" ++ LF; "Highlight on page 47" ++ LF; LF;
             "more" ++ LF; "==========" ++ LF ])%string.
  vm_compute. reflexivity.
Defined.

(** ** One entry for every five lines *)

Lemma entries_after_group st g c :
  parse_rawclip (rawclip_of g) = Ok c ->
  entries (buckets (after_group st g c)) = S (entries (buckets st)).
Proof.
  intros P. apply LoopFacts.parse_rawclip_type in P.
  unfold entries, buckets, after_group, has_type. simpl. unfold kind.
  rewrite P, !length_app.
  destruct (LoopFacts.kind_cases (rawclip_of g)) as [K|[K|[K|K]]];
    rewrite K; simpl; lia.
Qed.

Lemma entries_whole (k : nat) :
  forall (ls : list string) (st st' : Locals.t),
    List.length ls = (5 * k)%nat -> fresh st ->
    for_lines ls st = Ok st' ->
    fresh st' /\ entries (buckets st') = (entries (buckets st) + k)%nat.
Proof.
  induction k as [|k IH]; intros ls st st' Hl Hst H.
  - destruct ls; [|discriminate]. injection H as <-. split; [assumption|lia].
  - destruct ls as [|l1 [|l2 [|l3 [|l4 [|l5 ls]]]]];
      try (simpl in Hl; lia).
    change (l1 :: l2 :: l3 :: l4 :: l5 :: ls)
      with ([l1; l2; l3; l4; l5] ++ ls) in H.
    rewrite LoopFacts.for_lines_app, LoopFacts.group_step in H
      by (auto; reflexivity).
    destruct (parse_rawclip (rawclip_of [l1; l2; l3; l4; l5]))
      as [c|e] eqn:P; cbn [bind] in H; [|discriminate].
    apply IH in H; [|simpl in Hl; lia|apply LoopFacts.fresh_after_group].
    destruct H as [F E]. split; [assumption|].
    rewrite E, (entries_after_group _ _ P). lia.
Qed.

(** X4.  Whenever the parse returns, the four lists hold together one
    entry for every five lines of the input. *)
Theorem one_entry_per_five_lines (f : list string) (ext : Extraction.t) :
  parse_rawclips_file f = Ok ext ->
  entries ext = (List.length f / 5)%nat.
Proof.
  intros H. apply parse_rawclips_file_buckets in H as (st & H & ->).
  set (n := (5 * (List.length f / 5))%nat).
  assert (Hn : (n <= List.length f)%nat) by apply Nat.Div0.mul_div_le.
  assert (Hfull : List.length (firstn n f) = (5 * (List.length f / 5))%nat)
    by (rewrite firstn_length_le; auto).
  assert (Htl : (List.length (skipn n f) < 5)%nat).
  { rewrite length_skipn. unfold n.
    pose proof (Nat.div_mod_eq (List.length f) 5).
    pose proof (Nat.mod_upper_bound (List.length f) 5). lia. }
  rewrite <- (firstn_skipn n f), LoopFacts.for_lines_app in H.
  destruct (for_lines (firstn n f) Locals.init) as [st1|] eqn:F;
    [|discriminate].
  cbn [bind] in H.
  apply (entries_whole _ _ Hfull) in F as [Hst1 E1]; [|split; reflexivity].
  destruct (LoopFacts.run_partial (skipn n f) Htl Hst1) as (st2 & H2 & Hb).
  rewrite H2 in H. injection H as <-.
  rewrite Hb, E1. reflexivity.
Qed.

Lemma one_entry_per_five_lines_witness :
  entries (Extraction.mk
             [ Clip.mk "highlight" "Book" [46%Z] [] None None "text" ]
             [] []
             [ (RawClip.mk "Book" "Highlight on page 47" EmptyString "more"
                           "==========", 9%Z) ])
  = (12 / 5)%nat.
Proof.
  apply (@one_entry_per_five_lines
           [ "Book" ++ LF; "- Your Highlight on page 46" ++ LF; LF;
             "text" ++ LF; "==========" ++ LF;
             "Book" ++ LF; "Highlight on page 47" ++ LF; LF;
             "more" ++ LF; "==========" ++ LF;
             "Book" ++ LF; "- Your Note on page 48" ++ LF ])%string.
  vm_compute. reflexivity.
Defined.

Import FieldFacts ClipFacts.

(** ** Where an error comes from *)

Lemma window_next l1 l2 l3 l4 l5 (ls : list string) (j : nat) :
  window (l1 :: l2 :: l3 :: l4 :: l5 :: ls) (S j) = window ls j.
Proof.
  unfold window. replace (5 * S j)%nat with (5 + 5 * j)%nat by lia.
  reflexivity.
Qed.

Lemma first_failure (n : nat) :
  forall (ls : list string) (st : Locals.t) (e : exn),
    (List.length ls <= n)%nat -> fresh st ->
    for_lines ls st = Raise e ->
    exists k : nat,
      (5 * k + 5 <= List.length ls)%nat
      /\ parse_rawclip (rawclip_of (window ls k)) = Raise e
      /\ forall j, (j < k)%nat ->
                   exists c, parse_rawclip (rawclip_of (window ls j)) = Ok c.
Proof.
  induction n as [|n IH]; intros ls st e Hl Hst H.
  - destruct ls; [discriminate|simpl in Hl; lia].
  - destruct (Nat.lt_ge_cases (List.length ls) 5) as [Hs|Hs].
    + destruct (LoopFacts.run_partial ls Hs Hst) as (st' & H' & _).
      rewrite H' in H. discriminate.
    + destruct ls as [|l1 [|l2 [|l3 [|l4 [|l5 ls]]]]];
        try (simpl in Hs; lia).
      change (l1 :: l2 :: l3 :: l4 :: l5 :: ls)
        with ([l1; l2; l3; l4; l5] ++ ls) in H.
      rewrite LoopFacts.for_lines_app, LoopFacts.group_step in H
        by (auto; reflexivity).
      destruct (parse_rawclip (rawclip_of [l1; l2; l3; l4; l5]))
        as [c|e'] eqn:P; cbn [bind] in H.
      * apply IH in H; [|simpl in Hl; lia|apply LoopFacts.fresh_after_group].
        destruct H as (k & Hk & Pk & Before).
        exists (S k). split; [simpl; lia|]. split.
        -- now rewrite window_next.
        -- intros [|j] Hj; [now exists c|].
           rewrite window_next. apply Before. lia.
      * injection H as ->. exists 0%nat.
        split; [simpl; lia|]. split; [exact P|]. intros j Hj. lia.
Qed.

(** A file that opens and is read to its end: the function on its lines. *)
Lemma parse_rawclips_file_io_read (f : list string) :
  parse_rawclips_file_io (File.opened f None) = parse_rawclips_file f.
Proof. reflexivity. Qed.

(** X5.  Where an error of [parse_rawclips_file] comes from.  Either
    [open] raised it; or it is the error of the first group of five lines,
    among the lines read, on which building the clip raises, the groups
    before it having given a clip: then it is the error of the page,
    location, date or time extraction of that group, in that order, and a
    [KeyError] or a [ValueError]; or every whole group read gave a clip
    and the iteration over the file raised it.  Nothing else raises: the
    indexing of the collected lines and the classification of the clip
    never do. *)
Theorem parse_error_is_a_record_error (file : File.t) (e : exn) :
  parse_rawclips_file_io file = Raise e ->
  file = File.cannot_open e
  \/ exists (f : list string) (failure : option exn),
       file = File.opened f failure
       /\ ((exists k : nat,
               (5 * k + 5 <= List.length f)%nat
               /\ parse_rawclip (rawclip_of (window f k)) = Raise e
               /\ (forall j, (j < k)%nat ->
                      exists c,
                        parse_rawclip (rawclip_of (window f j)) = Ok c)
               /\ raised_in (RawClip.info (rawclip_of (window f k))) e
               /\ (e = KeyError \/ e = ValueError))
           \/ (failure = Some e
               /\ exists ext, parse_rawclips_file f = Ok ext)).
Proof.
  destruct file as [e0|f failure]; cbn [parse_rawclips_file_io]; intros H.
  - injection H as ->. now left.
  - right. exists f, failure. split; [reflexivity|].
    unfold parse_rawclips_file.
    destruct (for_lines f Locals.init) as [st|e'] eqn:F; cbn [bind] in H |- *.
    + right. destruct failure as [e0|]; [|discriminate].
      injection H as ->. split; [reflexivity|]. eexists; reflexivity.
    + left. injection H as ->.
      apply (@first_failure (List.length f)) in F; auto;
        [|split; reflexivity].
      destruct F as (k & Hk & Pk & Before).
      exists k.
      destruct (parse_rawclip_raises _ Pk) as [R E].
      split; [exact Hk|]. split; [exact Pk|]. split; [exact Before|].
      split; [exact R|exact E].
Qed.

Lemma parse_error_is_a_record_error_witness :
  exists k : nat,
    (5 * k + 5 <= 10)%nat
    /\ parse_rawclip
         (rawclip_of
            (window
               [ "Book" ++ LF; "- Your Highlight on page 46" ++ LF; LF;
                 "text" ++ LF; "==========" ++ LF;
                 "Book" ++ LF;
                 "- Your Note on page 47 | Added on Sunday, February 30, 2023 1:37:08 PM" ++ LF;
                 LF; "more" ++ LF; "==========" ++ LF ]%string k))
       = Raise ValueError.
Proof.
  destruct (@parse_error_is_a_record_error
              (File.opened
                 [ "Book" ++ LF; "- Your Highlight on page 46" ++ LF; LF;
                   "text" ++ LF; "==========" ++ LF;
                   "Book" ++ LF;
                   "- Your Note on page 47 | Added on Sunday, February 30, 2023 1:37:08 PM" ++ LF;
                   LF; "more" ++ LF; "==========" ++ LF ]%string None)
              ValueError)
    as [C|(f & failure & E & [(k & Hk & Pk & _)|[Fl _]])].
  - vm_compute. reflexivity.
  - discriminate C.
  - injection E as <- <-. exists k. split; [exact Hk|exact Pk].
  - injection E as <- <-. discriminate Fl.
Defined.

(** ** The lines that are never read *)

Lemma parse_rawclip_same_text (g g' : list string) :
  same_text g g' ->
  kind g = kind g'
  /\ match parse_rawclip (rawclip_of g), parse_rawclip (rawclip_of g') with
     | Ok c, Ok c' => c = c'
     | Raise e, Raise e' => e = e'
     | _, _ => False
     end.
Proof.
  intros (_ & _ & E0 & E1 & E3).
  unfold kind, parse_rawclip, get_rawclip_type, rawclip_of, strip.
  cbn [RawClip.source RawClip.info RawClip.content].
  rewrite E0, E1, E3. split; [reflexivity|].
  destruct (parse_page_info _); cbn [bind]; [|reflexivity].
  destruct (parse_location_info _); cbn [bind]; [|reflexivity].
  destruct (parse_date_info _); cbn [bind]; [|reflexivity].
  destruct (parse_time_info _); cbn [bind]; reflexivity.
Qed.

Lemma for_lines_same_text (gs gs' : list (list string)) :
  Forall2 same_text gs gs' ->
  forall st st' : Locals.t,
    fresh st -> fresh st' ->
    same_clips (buckets st) (buckets st')
    /\ Locals.line_cnt st = Locals.line_cnt st' ->
    agree (fun a b => same_clips (buckets a) (buckets b)
                      /\ Locals.line_cnt a = Locals.line_cnt b)
          (for_lines (List.concat gs) st) (for_lines (List.concat gs') st').
Proof.
  induction 1 as [|g g' gs gs' Hg _ IH]; intros st st' F F' S.
  - exact S.
  - cbn [List.concat]. rewrite !LoopFacts.for_lines_app.
    rewrite !LoopFacts.group_step by (auto; apply Hg).
    destruct (parse_rawclip_same_text Hg) as [K P].
    destruct (parse_rawclip (rawclip_of g)) as [c|e];
      destruct (parse_rawclip (rawclip_of g')) as [c'|e'];
      try contradiction; cbn [bind]; [subst c'|exact P].
    apply IH; try apply LoopFacts.fresh_after_group.
    destruct S as [(Sh & Sn & Sb & Su) Sl].
    unfold same_clips, buckets, after_group in *. simpl in *.
    rewrite Sh, Sn, Sb, Sl, K, !map_app, Su.
    repeat split.
    destruct (String.eqb (kind g') "unparsed"); reflexivity.
Qed.

(** X6.  The third and the fifth line of a group are never read: two
    inputs made of groups of five lines that agree on the first, second
    and fourth line of every group end the same way, with the same error
    or with the same three lists of clips and the same line numbers in the
    unparsed list. *)
Theorem blank_and_delimiter_are_not_read (gs gs' : list (list string)) :
  Forall2 same_text gs gs' ->
  agree same_clips (parse_rawclips_file (List.concat gs))
                   (parse_rawclips_file (List.concat gs')).
Proof.
  intros H. unfold parse_rawclips_file.
  pose proof (@for_lines_same_text gs gs' H Locals.init Locals.init
                (conj eq_refl eq_refl) (conj eq_refl eq_refl)
                (conj (conj eq_refl (conj eq_refl (conj eq_refl eq_refl)))
                      eq_refl)) as A.
  destruct (for_lines (List.concat gs) Locals.init);
    destruct (for_lines (List.concat gs') Locals.init);
    simpl in *; try contradiction; [apply A|exact A].
Qed.

Lemma blank_and_delimiter_are_not_read_witness :
  agree same_clips
    (parse_rawclips_file
       (List.concat
          [ [ "Book" ++ LF; "- Your Highlight on page 46" ++ LF; LF;
              "text" ++ LF; "==========" ++ LF ] ]%string))
    (parse_rawclips_file
       (List.concat
          [ [ "Book" ++ LF; "- Your Highlight on page 46" ++ LF;
              "not blank" ++ LF; "text" ++ LF;
              "- Your Note on page 1" ++ LF ] ]%string)).
Proof.
  apply blank_and_delimiter_are_not_read.
  repeat constructor.
Defined.

(** ** Searching a line from the left *)

Module SearchFacts.

(** The longest run wins when what follows it matches. *)
Lemma rrep_greedy (A : Type) (c : cls) (k : list ascii -> option A) (x : A) :
  forall (w s : list ascii) (mn : nat) (mx : option nat),
    all_in c w -> (mn <= List.length w)%nat -> within mx (List.length w) ->
    stops c s \/ mx = Some (List.length w) ->
    k s = Some x ->
    rrep c mn mx (w ++ s) k = Some x.
Proof.
  induction w as [|a w IH]; intros s mn mx Hw Hmn Hmx Hs Hk.
  - simpl in Hmn. assert (mn = 0%nat) as -> by lia.
    destruct s as [|b s]; simpl; [assumption|].
    destruct Hs as [Hs| ->].
    + simpl in Hs. rewrite Hs, andb_false_r. assumption.
    + simpl. assumption.
  - inversion Hw as [|? ? Ha Hw']; subst.
    simpl in Hmn, Hmx, Hs |- *.
    assert (Hm : more mx = true).
    { destruct mx as [[|m]|]; simpl in *; auto; lia. }
    rewrite Hm, Ha. simpl.
    rewrite (IH s (pred mn) (option_map pred mx)); auto; [lia| |].
    + destruct mx as [[|m]|]; simpl in *; auto; lia.
    + destruct Hs as [Hs|Hs]; [now left|right].
      destruct mx as [m|]; [|discriminate]. injection Hs as ->. reflexivity.
Qed.

(** A run of a class is read off a text in one way only. *)
Lemma run_unique (c : cls) (x : ascii) :
  cls_match c x = false ->
  forall w1 w2 X1 X2,
    all_in c w1 -> all_in c w2 -> stops c X2 ->
    w1 ++ x :: X1 = w2 ++ X2 -> w1 = w2 /\ X2 = x :: X1.
Proof.
  intros Hx. induction w1 as [|a w1 IH]; intros [|b w2] X1 X2 H1 H2 HX E;
    simpl in E.
  - auto.
  - injection E as <- _. inversion H2; subst. congruence.
  - subst X2. inversion H1; subst. simpl in HX. congruence.
  - injection E as <- E. inversion H1; inversion H2; subst.
    destruct (IH _ _ _ H4 H8 HX E) as [-> ->]. auto.
Qed.

(** Start positions that the first two letters of a pattern rule out. *)
Lemma search_free (n : nat) (r : regex) (a b : ascii) :
  (forall c s, cls_match (CChar a) c = false ->
               match_here n r (c :: s) = None) ->
  (forall c d s, cls_match (CChar b) d = false ->
                 match_here n r (c :: d :: s) = None) ->
  forall pre t,
    free_of a b pre = true ->
    search_from n r (pre ++ t) = search_from n r t.
Proof.
  intros Ha Hb. induction pre as [|c pre IH]; intros t F; [reflexivity|].
  cbn [free_of] in F. apply andb_prop in F as [F1 F2].
  cbn [app search_from].
  rewrite (IH t F2).
  apply orb_prop in F1 as [F1|F1].
  - apply negb_true_iff in F1. now rewrite Ha.
  - destruct pre as [|d pre]; [discriminate|].
    apply negb_true_iff in F1. cbn [app]. now rewrite Hb.
Qed.

Lemma free_of_app (a b : ascii) (x y : list ascii) :
  free_of a b x = true -> free_of a b y = true ->
  free_of a b (x ++ y) = true.
Proof.
  induction x as [|c x IH]; intros Fx Fy; [assumption|].
  cbn [free_of app] in *. apply andb_prop in Fx as [F1 F2].
  rewrite (IH F2 Fy), andb_true_r.
  apply orb_prop in F1 as [F1|F1]; [now rewrite F1|].
  destruct x as [|d x]; [discriminate|]. cbn [app]. rewrite F1.
  apply orb_true_r.
Qed.

Lemma free_of_run (a b : ascii) (c : cls) (w : list ascii) :
  (forall x, cls_match c x = true -> cls_match (CChar a) x = false) ->
  all_in c w -> free_of a b w = true.
Proof.
  intros H. induction 1 as [|x w Hx _ IH]; [reflexivity|].
  cbn [free_of]. now rewrite (H x Hx), IH.
Qed.

End SearchFacts.

(** ** The page pattern *)

Module PageFacts.

Import SearchFacts.

Lemma cls_match_hyphen a : cls_match (CChar "-") a = true -> a = "-"%char.
Proof.
  destruct a as [[] [] [] [] [] [] [] []]; try discriminate; reflexivity.
Qed.

Lemma digit_not_p a : cls_match digit a = true -> cls_match (CChar "p") a = false.
Proof.
  destruct a as [[] [] [] [] [] [] [] []]; try discriminate; reflexivity.
Qed.

Lemma page_no_first c s :
  cls_match (CChar "p") c = false -> match_here 3 page_re (c :: s) = None.
Proof.
  intros H.
  cbv [match_here page_re seq text lit chars list_ascii_of_string opt plus].
  cbn [rmatch]. now rewrite H.
Qed.

Lemma page_no_second c d s :
  cls_match (CChar "a") d = false ->
  match_here 3 page_re (c :: d :: s) = None.
Proof.
  intros H.
  cbv [match_here page_re seq text lit chars list_ascii_of_string opt plus].
  cbn [rmatch]. destruct (cls_match (CChar "p") c); now rewrite ?H.
Qed.

Lemma search_page_free pre t :
  free_of "p" "a" pre = true ->
  search_from 3 page_re (pre ++ t) = search_from 3 page_re t.
Proof.
  apply search_free; [apply page_no_first|apply page_no_second].
Qed.

Lemma match_page_single (N rest : list ascii) :
  digits N -> stops digit rest -> stops (CChar "-") rest ->
  match_here 3 page_re (chars "page " ++ N ++ rest)
  = Some [None; None; Some N].
Proof.
  intros [HN LN] Hd Hh.
  cbv [match_here page_re seq text lit chars list_ascii_of_string opt plus].
  cbn [rmatch app]. simpl.
  match goal with
  | |- match ?r with _ => _ end = _ => destruct r as [x|] eqn:E
  end.
  - exfalso.
    apply rrep_sound in E as (w & s' & Es & Hw & _ & _ & Hk).
    destruct s' as [|a s3]; [discriminate|].
    destruct (cls_match (CChar "-") a) eqn:Ea; [|discriminate].
    apply cls_match_hyphen in Ea as ->. symmetry in Es.
    apply (@run_unique digit "-"%char) in Es; auto.
    destruct Es as [_ ->]. discriminate.
  - apply rrep_greedy; auto; [exact I|].
    now rewrite consumed_app.
Qed.

Lemma match_page_range (sfx N M rest : list ascii) :
  sfx = [] \/ sfx = ["s"%char] ->
  digits N -> digits M -> stops digit rest ->
  match_here 3 page_re
    (chars "page" ++ sfx ++ " "%char :: N ++ "-"%char :: M ++ rest)
  = Some [Some N; Some M; None].
Proof.
  intros Hsfx [HN LN] [HM LM] Hd.
  cbv [match_here page_re seq text lit chars list_ascii_of_string opt plus].
  assert (E : @rrep captures digit 1 None (N ++ "-"%char :: M ++ rest)
                (fun s' =>
                   match s' with
                   | [] => None
                   | a :: s'0 =>
                       if cls_match (CChar "-") a
                       then rrep digit 1 None s'0
                              (fun s'1 =>
                                 Some [Some (consumed
                                               (N ++ "-"%char :: M ++ rest) s');
                                       Some (consumed s'0 s'1); None])
                       else None
                   end)
              = Some [Some N; Some M; None]).
  { apply rrep_greedy; auto; [exact I|now left|].
    simpl. apply rrep_greedy; auto; [exact I|].
    now rewrite !consumed_app. }
  destruct Hsfx as [->| ->]; cbn [rmatch app]; simpl;
    match goal with
    | |- context [@rrep ?A digit 1 None ?s ?k] =>
        replace (@rrep A digit 1 None s k)
          with (Some [Some N; Some M; None]) by (symmetry; exact E)
    end; reflexivity.
Qed.

Lemma match_pages_single (N rest : list ascii) :
  digits N -> stops digit rest -> stops (CChar "-") rest ->
  match_here 3 page_re (chars "pages " ++ N ++ rest) = None.
Proof.
  intros [HN LN] Hd Hh.
  cbv [match_here page_re seq text lit chars list_ascii_of_string opt plus].
  cbn [rmatch app]. simpl.
  match goal with
  | |- context [@rrep ?A digit 1 None ?s ?k] =>
      destruct (@rrep A digit 1 None s k) as [x|] eqn:E
  end; [exfalso|reflexivity].
  apply rrep_sound in E as (w & s' & Es & Hw & _ & _ & Hk).
  destruct s' as [|a s3]; [discriminate|].
  destruct (cls_match (CChar "-") a) eqn:Ea; [|discriminate].
  apply cls_match_hyphen in Ea as ->. symmetry in Es.
  apply (@run_unique digit "-"%char) in Es; auto.
  destruct Es as [_ ->]. discriminate.
Qed.

End PageFacts.

(** ** The location and date patterns *)

Module LocationFacts.

Import SearchFacts PageFacts.

Lemma location_no_first c s :
  cls_match (CChar "L") c = false ->
  match_here 3 location_re (c :: s) = None.
Proof.
  intros H.
  cbv [match_here location_re seq text lit chars list_ascii_of_string plus].
  cbn [rmatch]. now rewrite H.
Qed.

Lemma location_no_second c d s :
  cls_match (CChar "o") d = false ->
  match_here 3 location_re (c :: d :: s) = None.
Proof.
  intros H.
  cbv [match_here location_re seq text lit chars list_ascii_of_string plus].
  cbn [rmatch]. destruct (cls_match (CChar "L") c); now rewrite ?H.
Qed.

Lemma search_location_free pre t :
  free_of "L" "o" pre = true ->
  search_from 3 location_re (pre ++ t) = search_from 3 location_re t.
Proof.
  apply search_free; [apply location_no_first|apply location_no_second].
Qed.

Lemma match_location_single (N rest : list ascii) :
  digits N -> stops digit rest -> stops (CChar "-") rest ->
  match_here 3 location_re (chars "Location " ++ N ++ rest)
  = Some [None; None; Some N].
Proof.
  intros [HN LN] Hd Hh.
  cbv [match_here location_re seq text lit chars list_ascii_of_string plus].
  cbn [rmatch app]. simpl.
  match goal with
  | |- match ?r with _ => _ end = _ => destruct r as [x|] eqn:E
  end.
  - exfalso.
    apply rrep_sound in E as (w & s' & Es & Hw & _ & _ & Hk).
    destruct s' as [|a s3]; [discriminate|].
    destruct (cls_match (CChar "-") a) eqn:Ea; [|discriminate].
    apply cls_match_hyphen in Ea as ->. symmetry in Es.
    apply (@run_unique digit "-"%char) in Es; auto.
    destruct Es as [_ ->]. discriminate.
  - apply rrep_greedy; auto; [exact I|].
    now rewrite consumed_app.
Qed.

Lemma match_location_range (N M rest : list ascii) :
  digits N -> digits M -> stops digit rest ->
  match_here 3 location_re
    (chars "Location " ++ N ++ "-"%char :: M ++ rest)
  = Some [Some N; Some M; None].
Proof.
  intros [HN LN] [HM LM] Hd.
  cbv [match_here location_re seq text lit chars list_ascii_of_string plus].
  assert (E : @rrep captures digit 1 None (N ++ "-"%char :: M ++ rest)
                (fun s' =>
                   match s' with
                   | [] => None
                   | a :: s'0 =>
                       if cls_match (CChar "-") a
                       then rrep digit 1 None s'0
                              (fun s'1 =>
                                 Some [Some (consumed
                                               (N ++ "-"%char :: M ++ rest) s');
                                       Some (consumed s'0 s'1); None])
                       else None
                   end)
              = Some [Some N; Some M; None]).
  { apply rrep_greedy; auto; [exact I|now left|].
    simpl. apply rrep_greedy; auto; [exact I|].
    now rewrite !consumed_app. }
  cbn [rmatch app]; simpl;
    match goal with
    | |- context [@rrep ?A digit 1 None ?s ?k] =>
        replace (@rrep A digit 1 None s k)
          with (Some [Some N; Some M; None]) by (symmetry; exact E)
    end; reflexivity.
Qed.

End LocationFacts.

Module DateShape.

Import SearchFacts.

Lemma date_no_first c s :
  cls_match (CChar "A") c = false -> match_here 3 date_re (c :: s) = None.
Proof.
  intros H.
  cbv [match_here date_re seq text lit chars list_ascii_of_string plus between].
  cbn [rmatch]. now rewrite H.
Qed.

Lemma date_no_second c d s :
  cls_match (CChar "d") d = false ->
  match_here 3 date_re (c :: d :: s) = None.
Proof.
  intros H.
  cbv [match_here date_re seq text lit chars list_ascii_of_string plus between].
  cbn [rmatch]. destruct (cls_match (CChar "A") c); now rewrite ?H.
Qed.

Lemma search_date_free pre t :
  free_of "A" "d" pre = true ->
  search_from 3 date_re (pre ++ t) = search_from 3 date_re t.
Proof.
  apply search_free; [apply date_no_first|apply date_no_second].
Qed.

Lemma match_date (wd mo d y rest : list ascii) :
  all_in letter wd -> (1 <= List.length wd)%nat ->
  all_in letter mo -> (1 <= List.length mo)%nat ->
  digits12 d ->
  all_in digit y -> List.length y = 4%nat ->
  match_here 3 date_re
    (chars "Added on " ++ wd ++ chars ", " ++ mo ++ " "%char :: d
     ++ chars ", " ++ y ++ rest)
  = Some [Some mo; Some d; Some y].
Proof.
  intros Hwd Lwd Hmo Lmo [Hd Ld] Hy Ly.
  cbv [match_here date_re seq text lit chars list_ascii_of_string plus between].
  cbn [rmatch app]. simpl.
  apply rrep_greedy; [assumption|lia|exact I|now left|]. simpl.
  apply rrep_greedy; [assumption|lia|exact I|now left|]. simpl.
  apply rrep_greedy; [assumption|lia|simpl; lia|now left|]. simpl.
  apply rrep_greedy;
    [assumption|lia|simpl; lia|right; now rewrite Ly|].
  now rewrite !consumed_app.
Qed.

End DateShape.

Local Open Scope string_scope.

Import SearchFacts.

Lemma search_from_here n r t g :
  match_here n r t = Some g -> search_from n r t = Some g.
Proof.
  intros H. destruct t; simpl; now rewrite H.
Qed.

(** ** Page and location extraction *)

(** X7.  Where no earlier text can start the page pattern, [page N] gives
    what [int] makes of [N], and [page N-M] or [pages N-M] what it makes
    of [N] and then of [M], each being the whole run of digits written
    there: the one number, or the two, when the runs have at most
    [max_str_digits] digits, and the [ValueError] of the first run that has
    more. *)
Theorem parse_page_info_shapes (pre N M rest : string) :
  free_of "p" "a" (chars pre) = true ->
  number N -> number M -> stops digit (chars rest) ->
  (stops (CChar "-") (chars rest) ->
   parse_page_info (pre ++ "page " ++ N ++ rest)
   = (n <- int (chars N) ;; Ok [n]))
  /\ parse_page_info (pre ++ "page " ++ N ++ "-" ++ M ++ rest)
     = (n <- int (chars N) ;; m <- int (chars M) ;; Ok [n; m])
  /\ parse_page_info (pre ++ "pages " ++ N ++ "-" ++ M ++ rest)
     = (n <- int (chars N) ;; m <- int (chars M) ;; Ok [n; m])
  /\ ((Z.of_nat (String.length N) <= max_str_digits)%Z ->
      (Z.of_nat (String.length M) <= max_str_digits)%Z ->
      parse_page_info (pre ++ "pages " ++ N ++ "-" ++ M ++ rest)
      = Ok [decimal (chars N); decimal (chars M)])
  /\ ((max_str_digits < Z.of_nat (String.length N))%Z ->
      parse_page_info (pre ++ "pages " ++ N ++ "-" ++ M ++ rest)
      = Raise ValueError).
Proof.
  intros F HN HM Hd.
  assert (Plural : parse_page_info (pre ++ "pages " ++ N ++ "-" ++ M ++ rest)
                   = (n <- int (chars N) ;; m <- int (chars M) ;; Ok [n; m])).
  { unfold parse_page_info, search.
    rewrite !chars_app, (@PageFacts.search_page_free (chars pre) _ F).
    erewrite search_from_here;
      [|apply (@PageFacts.match_page_range ["s"%char] (chars N) (chars M)
                 (chars rest)); auto].
    apply ints_of_range. }
  split; [|split; [|split; [|split]]].
  - intros Hh. unfold parse_page_info, search.
    rewrite !chars_app, (@PageFacts.search_page_free (chars pre) _ F).
    erewrite search_from_here;
      [|apply (@PageFacts.match_page_single (chars N) (chars rest));
        assumption].
    apply ints_of_single.
  - unfold parse_page_info, search.
    rewrite !chars_app, (@PageFacts.search_page_free (chars pre) _ F).
    erewrite search_from_here;
      [|apply (@PageFacts.match_page_range [] (chars N) (chars M)
                 (chars rest)); auto].
    apply ints_of_range.
  - exact Plural.
  - intros LN LM. rewrite Plural, !int_within by now rewrite length_chars.
    reflexivity.
  - intros LN. rewrite Plural, int_beyond by now rewrite length_chars.
    reflexivity.
Qed.

Lemma parse_page_info_shapes_witness :
  parse_page_info
    "- Your Highlight on page 46 | Location 694-694 | Added on Sunday, August 27, 2023 1:37:08 PM"
  = Ok [46%Z]
  /\ parse_page_info "- Your Note on pages 12-13 | Location 700"
     = Ok [12%Z; 13%Z].
Proof.
  split.
  - refine (proj1 (@parse_page_info_shapes "- Your Highlight on " "46" "0"
      " | Location 694-694 | Added on Sunday, August 27, 2023 1:37:08 PM"
      _ _ _ _) _); try reflexivity;
      (split; [repeat constructor|simpl; lia]).
  - refine (proj1 (proj2 (proj2 (proj2
      (@parse_page_info_shapes "- Your Note on " "12" "13"
         " | Location 700" _ _ _ _)))) _ _); try reflexivity;
      try (split; [repeat constructor|simpl; lia]);
      vm_compute; discriminate.
Defined.

(** X8.  The plural keyword only takes a range: [pages N] with a single
    number gives no page at all. *)
Theorem pages_without_range_gives_no_page (pre N rest : string) :
  free_of "p" "a" (chars pre) = true ->
  number N -> stops digit (chars rest) -> stops (CChar "-") (chars rest) ->
  free_of "p" "a" (chars rest) = true ->
  parse_page_info (pre ++ "pages " ++ N ++ rest) = Ok [].
Proof.
  intros F HN Hd Hh Fr. unfold parse_page_info, search.
  rewrite !chars_app. rewrite (@PageFacts.search_page_free (chars pre) _ F).
  change (chars "pages " ++ chars N ++ chars rest)%list
    with ("p"%char :: (chars "ages " ++ chars N ++ chars rest))%list.
  cbn [search_from].
  change ("p"%char :: (chars "ages " ++ chars N ++ chars rest))%list
    with (chars "pages " ++ chars N ++ chars rest)%list.
  rewrite (@PageFacts.match_pages_single (chars N) (chars rest))
    by assumption.
  rewrite <- (app_nil_r (chars "ages " ++ chars N ++ chars rest)).
  rewrite PageFacts.search_page_free; [reflexivity|].
  apply free_of_app; [reflexivity|].
  apply free_of_app; [|assumption].
  apply (@free_of_run _ _ digit); [apply PageFacts.digit_not_p|apply HN].
Qed.

Lemma pages_without_range_gives_no_page_witness :
  parse_page_info "- Your Note on pages 12 | Location 700" = Ok [].
Proof.
  refine (@pages_without_range_gives_no_page "- Your Note on " "12"
            " | Location 700" _ _ _ _ _); try reflexivity.
  split; [repeat constructor|simpl; lia].
Defined.

(** X9.  Where no earlier text can start the location pattern,
    [Location N] gives what [int] makes of [N] and [Location N-M] what it
    makes of [N] and then of [M]: the one number, or the two, when the
    runs of digits have at most [max_str_digits] digits, and the
    [ValueError] of the first run that has more. *)
Theorem parse_location_info_shapes (pre N M rest : string) :
  free_of "L" "o" (chars pre) = true ->
  number N -> number M -> stops digit (chars rest) ->
  (stops (CChar "-") (chars rest) ->
   parse_location_info (pre ++ "Location " ++ N ++ rest)
   = (n <- int (chars N) ;; Ok [n]))
  /\ parse_location_info (pre ++ "Location " ++ N ++ "-" ++ M ++ rest)
     = (n <- int (chars N) ;; m <- int (chars M) ;; Ok [n; m])
  /\ ((Z.of_nat (String.length N) <= max_str_digits)%Z ->
      (Z.of_nat (String.length M) <= max_str_digits)%Z ->
      parse_location_info (pre ++ "Location " ++ N ++ "-" ++ M ++ rest)
      = Ok [decimal (chars N); decimal (chars M)])
  /\ ((max_str_digits < Z.of_nat (String.length N))%Z ->
      parse_location_info (pre ++ "Location " ++ N ++ "-" ++ M ++ rest)
      = Raise ValueError).
Proof.
  intros F HN HM Hd.
  assert (Range : parse_location_info
                    (pre ++ "Location " ++ N ++ "-" ++ M ++ rest)
                  = (n <- int (chars N) ;; m <- int (chars M) ;; Ok [n; m])).
  { unfold parse_location_info, search.
    rewrite !chars_app,
      (@LocationFacts.search_location_free (chars pre) _ F).
    erewrite search_from_here;
      [|apply (@LocationFacts.match_location_range (chars N) (chars M)
                 (chars rest)); assumption].
    apply ints_of_range. }
  split; [|split; [|split]].
  - intros Hh. unfold parse_location_info, search.
    rewrite !chars_app,
      (@LocationFacts.search_location_free (chars pre) _ F).
    erewrite search_from_here;
      [|apply (@LocationFacts.match_location_single (chars N) (chars rest));
        assumption].
    apply ints_of_single.
  - exact Range.
  - intros LN LM. rewrite Range, !int_within by now rewrite length_chars.
    reflexivity.
  - intros LN. rewrite Range, int_beyond by now rewrite length_chars.
    reflexivity.
Qed.

Lemma parse_location_info_shapes_witness :
  parse_location_info
    "- Your Highlight on page 46 | Location 694-694 | Added on Sunday, August 27, 2023 1:37:08 PM"
  = Ok [694%Z; 694%Z]
  /\ parse_location_info "- Your Bookmark on page 3 | Location 41 | Added"
     = Ok [41%Z].
Proof.
  split.
  - refine (proj1 (proj2 (proj2 (@parse_location_info_shapes
      "- Your Highlight on page 46 | " "694" "694"
      " | Added on Sunday, August 27, 2023 1:37:08 PM" _ _ _ _))) _ _);
      try reflexivity; try (split; [repeat constructor|simpl; lia]);
      vm_compute; discriminate.
  - refine (proj1 (@parse_location_info_shapes
      "- Your Bookmark on page 3 | " "41" "0" " | Added" _ _ _ _) _);
      try reflexivity; (split; [repeat constructor|simpl; lia]).
Defined.

Import SearchFacts FieldFacts.

(** ** Date extraction on the line the device writes *)

Lemma decimal_four_digits (y : list ascii) :
  all_in digit y -> List.length y = 4%nat -> (0 <= decimal y <= 9999)%Z.
Proof.
  intros H L.
  destruct y as [|a [|b [|c [|d [|e y]]]]]; try discriminate.
  inversion H as [|? ? Ha H1]; subst. inversion H1 as [|? ? Hb H2]; subst.
  inversion H2 as [|? ? Hc H3]; subst. inversion H3 as [|? ? Hd _]; subst.
  apply digit_val_range in Ha, Hb, Hc, Hd.
  unfold decimal. cbn [fold_left]. lia.
Qed.

Lemma getitem_months (k : string) (v : Z) :
  In (k, v) MONTHS -> getitem MONTHS k = Ok v /\ (1 <= v <= 12)%Z.
Proof.
  intros H. simpl in H.
  repeat (destruct H as [H|H];
          [injection H as <- <-; split; [reflexivity|lia]|]).
  contradiction.
Qed.

Lemma search_date_line (pre wd mo d y rest : string) :
  free_of "A" "d" (chars pre) = true ->
  word wd -> word mo -> time_field d -> year4 y ->
  search 3 date_re
    (pre ++ "Added on " ++ wd ++ ", " ++ mo ++ " " ++ d ++ ", " ++ y ++ rest)
  = Some [Some (chars mo); Some (chars d); Some (chars y)].
Proof.
  intros F [Hwd Lwd] [Hmo Lmo] Hd [Hy Ly]. unfold search.
  rewrite !chars_app.
  rewrite (@DateShape.search_date_free (chars pre) _ F).
  apply search_from_here.
  apply (@DateShape.match_date (chars wd) (chars mo) (chars d) (chars y)
           (chars rest)); assumption.
Qed.

(** X11.  On a line that reads [Added on <weekday>, <month> <day>, <year>]
    with a month of the table, in any letter case, date extraction gives
    the date of that year, month number and day when the year is not 0000
    and the day is a day of that month, and raises [ValueError]
    otherwise. *)
Theorem parse_date_info_shape (pre wd mo d y rest : string) (v : Z) :
  free_of "A" "d" (chars pre) = true ->
  word wd -> word mo -> time_field d -> year4 y ->
  In (of_chars (lower (chars mo)), v) MONTHS ->
  let line :=
    pre ++ "Added on " ++ wd ++ ", " ++ mo ++ " " ++ d ++ ", " ++ y ++ rest in
  let year := decimal (chars y) in
  let day := decimal (chars d) in
  ((1 <= year)%Z -> (1 <= day <= Datetime.days_in_month year v)%Z ->
   parse_date_info line = Ok (Some (Datetime.Date year v day)))
  /\ (year = 0%Z \/ day = 0%Z \/ (Datetime.days_in_month year v < day)%Z ->
      parse_date_info line = Raise ValueError).
Proof.
  intros F Hwd Hmo Hd Hy Hin line year day.
  pose proof (@search_date_line pre wd mo d y rest F Hwd Hmo Hd Hy) as S.
  fold line in S.
  destruct (@getitem_months _ _ Hin) as [G Hv].
  pose proof (@decimal_four_digits (chars y) (proj1 Hy) (proj2 Hy)) as By.
  fold year in By.
  assert (P : parse_date_info line
              = (dt <- Datetime.mk_date year v day ;; Ok (Some dt))).
  { rewrite (@DateFacts.parse_date_info_groups line (chars mo) (chars d)
               (chars y)); [|apply Hd|apply Hy|exact S].
    now rewrite G. }
  rewrite P.
  destruct (Datetime.mk_date year v day) as [dt|e] eqn:M; cbn [bind].
  - apply mk_date_valid in M as [-> V]. unfold valid_date in V. simpl in V.
    split; [reflexivity|]. intros Bad. lia.
  - unfold Datetime.mk_date in M.
    destruct (_ && _) eqn:C in M; [discriminate|]. injection M as <-.
    split; [|reflexivity]. intros Hy1 Hd1. exfalso.
    rewrite <- not_true_iff_false in C. apply C.
    repeat (apply andb_true_intro; split); apply Z.leb_le; lia.
Qed.

Lemma parse_date_info_shape_witness :
  parse_date_info
    "- Your Highlight on page 46 | Location 694-694 | Added on Sunday, AUGUST 27, 2023 1:37:08 PM"
  = Ok (Some (Datetime.Date 2023 8 27))
  /\ parse_date_info "- Your Note on page 3 | Added on Thursday, February 30, 2023 1:37:08 PM"
     = Raise ValueError.
Proof.
  split.
  - refine (proj1 (@parse_date_info_shape
      "- Your Highlight on page 46 | Location 694-694 | "
      "Sunday" "AUGUST" "27" "2023" " 1:37:08 PM" 8 _ _ _ _ _ _) _ _);
      try reflexivity;
      try (split; [repeat constructor|simpl; lia]);
      try (vm_compute; intuition discriminate).
  - refine (proj2 (@parse_date_info_shape
      "- Your Note on page 3 | "
      "Thursday" "February" "30" "2023" " 1:37:08 PM" 2 _ _ _ _ _ _) _);
      try reflexivity;
      try (split; [repeat constructor|simpl; lia]);
      try (simpl; auto 10; fail).
    right; right. vm_compute. reflexivity.
Defined.

(** ** The clips kept and the messages *)

Lemma contains_In (l : list string) (x : string) :
  contains (Some l) x = true <-> In x l.
Proof.
  unfold contains. rewrite existsb_exists. split.
  - intros (y & Hy & E). apply String.eqb_eq in E. now subst.
  - intros H. exists x. split; [assumption|apply String.eqb_refl].
Qed.

Lemma contains_same (l1 l2 : list string) (x : string) :
  (forall y, In y l1 <-> In y l2) ->
  contains (Some l1) x = contains (Some l2) x.
Proof.
  intros H.
  destruct (contains (Some l1) x) eqn:E1; destruct (contains (Some l2) x) eqn:E2;
    try reflexivity.
  - apply contains_In, H, contains_In in E1. congruence.
  - apply contains_In, H, contains_In in E2. congruence.
Qed.

Lemma falsy_same (l1 l2 : list string) :
  (forall y, In y l1 <-> In y l2) -> falsy (Some l1) = falsy (Some l2).
Proof.
  intros H. destruct l1 as [|a l1], l2 as [|b l2]; try reflexivity.
  - exfalso. apply (proj2 (H b)). now left.
  - exfalso. apply (proj1 (H a)). now left.
Qed.

(** X12.  The clips kept and the messages printed depend only on which
    type flags were given, not on their order or repetition, and giving
    all three flags is the same as giving none. *)
Theorem kept_clips_depend_on_flags_given (ext : Extraction.t) :
  (forall l1 l2 : list string,
      (forall y, In y l1 <-> In y l2) ->
      results_of (Some l1) ext = results_of (Some l2) ext
      /\ forall q, print_extraction_messages q ext (Some l1)
                   = print_extraction_messages q ext (Some l2))
  /\ (forall l : list string,
         In "highlights" l -> In "notes" l -> In "bookmarks" l ->
         results_of (Some l) ext = results_of None ext
         /\ forall q, print_extraction_messages q ext (Some l)
                      = print_extraction_messages q ext None).
Proof.
  split.
  - intros l1 l2 H.
    unfold results_of, print_extraction_messages.
    rewrite (@falsy_same l1 l2 H), !(@contains_same l1 l2 _ H). split; [reflexivity|].
    intros q. reflexivity.
  - intros l Hh Hn Hb.
    apply contains_In in Hh, Hn, Hb.
    unfold results_of, print_extraction_messages.
    rewrite Hh, Hn, Hb. split.
    + destruct (falsy (Some l)); reflexivity.
    + intros q. destruct q, (falsy (Some l)); reflexivity.
Qed.

Lemma kept_clips_depend_on_flags_given_witness :
  results_of (Some ["notes"; "highlights"; "notes"])
             (Extraction.mk
                [ Clip.mk "highlight" "Book" [46%Z] [] None None "text" ]
                [ Clip.mk "note" "Book" [47%Z] [] None None "more" ] [] [])
  = results_of (Some ["highlights"; "notes"])
               (Extraction.mk
                  [ Clip.mk "highlight" "Book" [46%Z] [] None None "text" ]
                  [ Clip.mk "note" "Book" [47%Z] [] None None "more" ] [] []).
Proof.
  apply (proj1 (kept_clips_depend_on_flags_given _)).
  intros y. simpl. tauto.
Defined.

(** X13.  The counts the messages announce add up to the number of clips
    kept for the output. *)
Theorem messages_count_the_kept_clips (ext : Extraction.t)
        (types : option (list string)) :
  exists counted : list (nat * string),
    print_extraction_messages false ext types
    = map (fun p => found (fst p) (snd p)) counted
    /\ List.length (results_of types ext) = list_sum (map fst counted).
Proof.
  unfold print_extraction_messages, results_of.
  destruct (falsy types).
  - exists [ (List.length (Extraction.highlights ext), "highlights");
             (List.length (Extraction.notes ext), "notes");
             (List.length (Extraction.bookmarks ext), "bookmarks") ].
    split; [reflexivity|]. rewrite !length_app. simpl. lia.
  - exists ((if contains types "highlights"
             then [(List.length (Extraction.highlights ext), "highlights")]
             else [])
            ++ (if contains types "notes"
                then [(List.length (Extraction.notes ext), "notes")]
                else [])
            ++ (if contains types "bookmarks"
                then [(List.length (Extraction.bookmarks ext), "bookmarks")]
                else []))%list.
    destruct (contains types "highlights"), (contains types "notes"),
      (contains types "bookmarks"); split; try reflexivity;
      rewrite ?length_app; simpl; lia.
Qed.

(** ** What the formatters keep of a clip *)

Module TextFacts.

Lemma app_empty_r (s : string) : s ++ EmptyString = s.
Proof. induction s as [|c s IH]; simpl; [reflexivity|now rewrite IH]. Qed.

Lemma occurs_in_here (p x q : string) : occurs_in x (p ++ x ++ q).
Proof. now exists p, q. Qed.

Lemma occurs_in_self (x : string) : occurs_in x x.
Proof. exists EmptyString, EmptyString. now rewrite app_empty_r. Qed.

Lemma occurs_in_app_l (x a b : string) :
  occurs_in x a -> occurs_in x (a ++ b).
Proof.
  intros (p & q & ->). exists p, (q ++ b).
  now rewrite !string_app_assoc.
Qed.

Lemma occurs_in_app_r (x a b : string) :
  occurs_in x b -> occurs_in x (a ++ b).
Proof.
  intros (p & q & ->). exists (a ++ p), q.
  now rewrite !string_app_assoc.
Qed.

Lemma occurs_in_trans (x y z : string) :
  occurs_in x y -> occurs_in y z -> occurs_in x z.
Proof.
  intros Hxy (p & q & ->).
  apply occurs_in_app_r, occurs_in_app_l. assumption.
Qed.

Lemma occurs_in_join (sep x : string) (l : list string) :
  In x l -> occurs_in x (join sep l).
Proof.
  induction l as [|y [|z l] IH]; intros H.
  - contradiction.
  - destruct H as [->|[]]. apply occurs_in_self.
  - cbn [join]. destruct H as [->|H].
    + apply occurs_in_app_l, occurs_in_self.
    + apply occurs_in_app_r, occurs_in_app_r, IH, H.
Qed.

End TextFacts.

Import TextFacts.

(** X15.  Every formatter shows the source and the content of every clip
    it is given: verbatim in the plain-text and outline outputs, as JSON
    strings under their keys in the structured output. *)
Theorem formatters_show_source_and_content (id : string -> N)
        (clips : list Clip.t) (c : Clip.t) :
  In c clips ->
  occurs_in ("Source: " ++ Clip.source c ++ LF) (text_formatter id clips)
  /\ occurs_in (Clip.content c ++ LF) (text_formatter id clips)
  /\ occurs_in ("* " ++ Clip.source c ++ LF) (org_formatter clips)
  /\ occurs_in ("  :Source: " ++ Clip.source c) (org_formatter clips)
  /\ occurs_in (Clip.content c) (org_formatter clips)
  /\ occurs_in (Json.encode_str "source" ++ ": "
                ++ Json.encode_str (Clip.source c))
               (json_formatter clips)
  /\ occurs_in (Json.encode_str "content" ++ ": "
                ++ Json.encode_str (Clip.content c))
               (json_formatter clips).
Proof.
  intros Hin.
  assert (T : forall x,
             In x (text_items id (repeat_str "-" columns ++ LF) c) ->
             occurs_in x (text_formatter id clips)).
  { intros x Hx. unfold text_formatter. cbv zeta.
    apply occurs_in_app_r, occurs_in_app_l.
    eapply occurs_in_trans; [apply occurs_in_join, Hx|].
    apply occurs_in_join.
    apply (in_map (fun clip => join EmptyString
                                 (text_items id (repeat_str "-" columns ++ LF)
                                             clip))) in Hin.
    exact Hin. }
  assert (O : forall x,
             In x [ "* " ++ Clip.source c ++ LF;
                    "  :Source: " ++ Clip.source c;
                    Clip.content c ] ->
             occurs_in x (org_formatter clips)).
  { intros x Hx. unfold org_formatter. cbv zeta.
    apply occurs_in_app_r.
    eapply occurs_in_trans; [|apply occurs_in_join;
      apply (in_map (fun clip => join LF _) _ _ Hin)].
    apply occurs_in_join. simpl in Hx |- *. intuition. }
  assert (J : forall key v,
             In (key, Json.JStr v) (Json.fields (json_object c)) ->
             occurs_in (Json.encode_str key ++ ": " ++ Json.encode_str v)
                       (json_formatter clips)).
  { intros key v Hk. unfold json_formatter, Json.dumps. cbv zeta.
    destruct clips as [|c0 clips']; [contradiction|].
    set (objs := map json_object (c0 :: clips')).
    assert (Ho : In (json_object c) objs) by (apply in_map; exact Hin).
    cbn [map] in objs. subst objs. cbn [Json.dumps_at].
    apply occurs_in_app_r, occurs_in_app_r, occurs_in_app_l.
    eapply occurs_in_trans;
      [|apply occurs_in_join;
        apply (in_map (Json.dumps_at 4 1) _ _ Ho)].
    unfold json_object. cbn [Json.dumps_at].
    apply occurs_in_app_r, occurs_in_app_r, occurs_in_app_l.
    apply occurs_in_join.
    apply (in_map (fun kv : string * Json.json =>
                     let '(key, v) := kv in
                     Json.encode_str key ++ ": " ++ Json.dumps_at 4 2 v)
                  _ _ Hk). }
  repeat split.
  - apply T. simpl. auto.
  - apply T. simpl. auto 10.
  - apply O. simpl. auto.
  - apply O. simpl. auto.
  - apply O. simpl. auto.
  - apply J. simpl. auto.
  - apply J. simpl. auto 10.
Qed.

Lemma formatters_show_source_and_content_witness :
  occurs_in ("Source: " ++ "Book" ++ LF)
            (text_formatter (fun _ => 0%N)
               [ Clip.mk "note" "Book" [47%Z] [] None None "more" ])
  /\ occurs_in (Json.encode_str "content" ++ ": " ++ Json.encode_str "more")
               (json_formatter
                  [ Clip.mk "note" "Book" [47%Z] [] None None "more" ]).
Proof.
  destruct (@formatters_show_source_and_content (fun _ => 0%N)
              [ Clip.mk "note" "Book" [47%Z] [] None None "more" ]
              (Clip.mk "note" "Book" [47%Z] [] None None "more")
              (or_introl eq_refl))
    as (T & _ & _ & _ & _ & _ & J).
  split; [exact T|exact J].
Defined.

(** ** The structured output is plain ASCII *)

Module PlainFacts.

Lemma plain_app (a b : string) : plain a -> plain b -> plain (a ++ b).
Proof.
  unfold plain. intros Ha Hb. now rewrite chars_app, forallb_app, Ha, Hb.
Qed.

Lemma plain_join (sep : string) (l : list string) :
  plain sep -> Forall plain l -> plain (join sep l).
Proof.
  intros Hs. induction 1 as [|x l Hx Hl IH]; [reflexivity|].
  destruct l as [|y l]; [exact Hx|].
  cbn [join]. auto using plain_app.
Qed.

Lemma plain_concat (l : list string) :
  Forall plain l -> plain (String.concat EmptyString l).
Proof.
  induction 1 as [|x l Hx Hl IH]; [reflexivity|].
  destruct l as [|y l]; [exact Hx|].
  cbn [String.concat]. apply plain_app; [exact Hx|exact IH].
Qed.

Lemma plain_repeat_str (c : string) (n : nat) :
  plain c -> plain (repeat_str c n).
Proof.
  intros Hc. induction n as [|n IH]; [reflexivity|].
  cbn [repeat_str]. now apply plain_app.
Qed.

Lemma plain_escape_char (c : ascii) : plain (Json.escape_char c).
Proof.
  destruct c as [[] [] [] [] [] [] [] []]; vm_compute; reflexivity.
Qed.

Lemma plain_encode_str (s : string) : plain (Json.encode_str s).
Proof.
  unfold Json.encode_str.
  apply plain_app; [reflexivity|apply plain_app; [|reflexivity]].
  apply plain_concat. apply Forall_map, Forall_forall.
  intros c _. apply plain_escape_char.
Qed.

Lemma plain_string_of_uint (u : Decimal.uint) :
  plain (DecimalString.NilEmpty.string_of_uint u).
Proof.
  induction u; try reflexivity;
    cbn [DecimalString.NilEmpty.string_of_uint]; unfold plain in *; cbn [chars list_ascii_of_string forallb];
    fold (chars (DecimalString.NilEmpty.string_of_uint u)); now rewrite IHu.
Qed.

Lemma plain_str_int (n : Z) : plain (str_int n).
Proof.
  unfold str_int, DecimalString.NilZero.string_of_int.
  destruct (Z.to_int n) as [u|u]; unfold DecimalString.NilZero.string_of_uint.
  - destruct u; try reflexivity; apply plain_string_of_uint.
  - change (plain ("-" ++ match u with
                          | Decimal.Nil => "0"
                          | _ => DecimalString.NilEmpty.string_of_uint u
                          end)).
    apply plain_app; [reflexivity|].
    destruct u; try reflexivity; apply plain_string_of_uint.
Qed.

Lemma plain_newline_indent (i l : nat) : plain (Json.newline_indent i l).
Proof.
  unfold Json.newline_indent.
  apply plain_app; [reflexivity|]. now apply plain_repeat_str.
Qed.

Lemma dumps_list_cons (indent level : nat) (x : Json.json)
      (l : list Json.json) :
  Json.dumps_at indent level (Json.JList (x :: l))
  = "[" ++ Json.newline_indent indent (S level)
    ++ join ("," ++ Json.newline_indent indent (S level))
            (map (Json.dumps_at indent (S level)) (x :: l))
    ++ Json.newline_indent indent level ++ "]".
Proof. reflexivity. Qed.

Lemma dumps_obj_cons (indent level : nat) (f : string * Json.json)
      (fs : list (string * Json.json)) :
  Json.dumps_at indent level (Json.JObj (f :: fs))
  = "{" ++ Json.newline_indent indent (S level)
    ++ join ("," ++ Json.newline_indent indent (S level))
            (map (fun kv : string * Json.json =>
                    let '(key, v) := kv in
                    Json.encode_str key ++ ": "
                    ++ Json.dumps_at indent (S level) v)
                 (f :: fs))
    ++ Json.newline_indent indent level ++ "}".
Proof. reflexivity. Qed.

Lemma plain_block (open close : string) (indent level : nat)
      (items : list string) :
  plain open -> plain close -> Forall plain items ->
  plain (open ++ Json.newline_indent indent (S level)
         ++ join ("," ++ Json.newline_indent indent (S level)) items
         ++ Json.newline_indent indent level ++ close).
Proof.
  intros Ho Hc Hi.
  apply plain_app; [exact Ho|].
  apply plain_app; [apply plain_newline_indent|].
  apply plain_app; [|apply plain_app; [apply plain_newline_indent|exact Hc]].
  apply plain_join; [|exact Hi].
  apply plain_app; [reflexivity|apply plain_newline_indent].
Qed.

Lemma plain_ints (level : nat) (l : list Z) :
  plain (Json.dumps_at 4 level (Json.JList (map Json.JInt l))).
Proof.
  destruct l as [|n l]; [reflexivity|].
  cbn [map]. rewrite dumps_list_cons.
  apply plain_block; try reflexivity.
  apply Forall_map. constructor; [apply plain_str_int|].
  apply Forall_map, Forall_forall. intros m _. apply plain_str_int.
Qed.

Lemma plain_field (key : string) (v : Json.json) (level : nat) :
  plain (Json.dumps_at 4 level v) ->
  plain (Json.encode_str key ++ ": " ++ Json.dumps_at 4 level v).
Proof.
  intros H. apply plain_app; [apply plain_encode_str|].
  apply plain_app; [reflexivity|exact H].
Qed.

Lemma plain_object (c : Clip.t) :
  plain (Json.dumps_at 4 1 (json_object c)).
Proof.
  unfold json_object. rewrite dumps_obj_cons.
  apply plain_block; try reflexivity.
  apply Forall_map.
  repeat constructor; apply plain_field;
    try apply plain_ints; apply plain_encode_str.
Qed.

End PlainFacts.

(** X16.  Whatever the clips hold, the structured output consists of line
    feeds and printable ASCII characters only. *)
Theorem json_formatter_is_plain_ascii (clips : list Clip.t) :
  plain (json_formatter clips).
Proof.
  unfold json_formatter, Json.dumps. cbv zeta.
  destruct clips as [|c clips]; [reflexivity|].
  cbn [map]. rewrite PlainFacts.dumps_list_cons.
  apply PlainFacts.plain_block; try reflexivity.
  apply Forall_map. constructor; [apply PlainFacts.plain_object|].
  apply Forall_map, Forall_forall. intros m _.
  apply PlainFacts.plain_object.
Qed.

Local Open Scope list_scope.

(** ** The result on any input *)

Module WindowFacts.

Lemma firstn_plus (A : Type) (n m : nat) (l : list A) :
  firstn (n + m) l = firstn n l ++ firstn m (skipn n l).
Proof.
  revert l. induction n as [|n IH]; intros l; [reflexivity|].
  destruct l as [|x l]; simpl.
  - now rewrite firstn_nil.
  - now rewrite IH.
Qed.

Lemma firstn_windows (f : list string) (k : nat) :
  firstn (5 * k) f = List.concat (map (window f) (List.seq 0 k)).
Proof.
  induction k as [|k IH]; [reflexivity|].
  rewrite seq_S, map_app, concat_app. cbn [map List.concat Nat.add].
  rewrite app_nil_r, <- IH.
  replace (5 * S k)%nat with (5 * k + 5)%nat by lia.
  apply firstn_plus.
Qed.

Lemma windows_five (f : list string) : Forall five_lines (windows f).
Proof.
  unfold windows. apply Forall_map, Forall_forall.
  intros k Hk. apply in_seq in Hk. unfold five_lines, window.
  rewrite length_firstn, length_skipn.
  pose proof (Nat.Div0.mul_div_le (List.length f) 5). lia.
Qed.

Lemma split_windows (f : list string) :
  f = List.concat (windows f) ++ skipn (5 * (List.length f / 5)) f
  /\ (List.length (skipn (5 * (List.length f / 5)) f) < 5)%nat.
Proof.
  split.
  - unfold windows. rewrite <- firstn_windows. symmetry. apply firstn_skipn.
  - rewrite length_skipn.
    pose proof (Nat.div_mod_eq (List.length f) 5).
    pose proof (Nat.mod_upper_bound (List.length f) 5). lia.
Qed.

(** A run of groups returns only if every group yields a clip. *)
Lemma run_groups_inv (gs : list (list string)) :
  forall (st st' : Locals.t),
    fresh st -> Forall five_lines gs ->
    for_lines (List.concat gs) st = Ok st' ->
    exists cs, clips_of gs cs.
Proof.
  induction gs as [|g gs IH]; intros st st' Hst H5 H.
  - exists []. constructor.
  - inversion H5 as [|? ? Hg H5']; subst.
    cbn [List.concat] in H.
    rewrite LoopFacts.for_lines_app, LoopFacts.group_step in H by assumption.
    destruct (parse_rawclip (rawclip_of g)) as [c|e] eqn:P; [|discriminate].
    cbn [bind] in H.
    apply IH in H as [cs Hcs]; auto using LoopFacts.fresh_after_group.
    exists (c :: cs). now constructor.
Qed.

End WindowFacts.

(** X2.  On any input the parse returns exactly when every whole group of
    five lines yields a clip, and then the three lists hold these clips by
    type, in input order, and the unparsed list holds the groups without a
    kind prefix, each with the line counter of its fifth line; lines after
    the last whole group play no part. *)
Theorem parse_rawclips_file_on_any_input (f : list string) :
  let built (cs : list Clip.t) : Extraction.t :=
    Extraction.mk (filter (has_type "highlight") cs)
                  (filter (has_type "note") cs)
                  (filter (has_type "bookmark") cs)
                  (unparsed_of 0 (windows f)) in
  (forall ext : Extraction.t,
      parse_rawclips_file f = Ok ext ->
      exists cs : list Clip.t, clips_of (windows f) cs /\ ext = built cs)
  /\ (forall cs : list Clip.t,
         clips_of (windows f) cs -> parse_rawclips_file f = Ok (built cs)).
Proof.
  cbv zeta.
  destruct (WindowFacts.split_windows f) as [Ef Ht].
  pose proof (WindowFacts.windows_five f) as H5.
  assert (R : forall cs,
             clips_of (windows f) cs ->
             for_lines f Locals.init
             = (st <- Ok (after_groups Locals.init (windows f) cs) ;;
                for_lines (skipn (5 * (List.length f / 5)) f) st)).
  { intros cs Hcs. rewrite Ef at 1. rewrite LoopFacts.for_lines_app.
    now rewrite (@LoopFacts.run_groups (windows f) cs Locals.init
                   (conj eq_refl eq_refl) H5 Hcs). }
  assert (P : forall cs,
             clips_of (windows f) cs ->
             parse_rawclips_file f
             = Ok (Extraction.mk (filter (has_type "highlight") cs)
                     (filter (has_type "note") cs)
                     (filter (has_type "bookmark") cs)
                     (unparsed_of 0 (windows f)))).
  { intros cs Hcs. unfold parse_rawclips_file. rewrite (R cs Hcs).
    cbn [bind].
    destruct (@LoopFacts.run_partial _
                (after_groups Locals.init (windows f) cs)
                Ht (conj eq_refl eq_refl)) as (st2 & -> & Hb).
    cbn [bind]. unfold buckets in Hb. now rewrite Hb. }
  split; [|exact P].
  intros ext H.
  assert (exists cs, clips_of (windows f) cs) as [cs Hcs].
  { apply parse_rawclips_file_buckets in H as (st & H & _).
    rewrite Ef, LoopFacts.for_lines_app in H.
    destruct (for_lines (List.concat (windows f)) Locals.init)
      as [st1|] eqn:F; [|discriminate].
    exact (@WindowFacts.run_groups_inv (windows f) Locals.init st1
             (conj eq_refl eq_refl) H5 F). }
  exists cs. split; [exact Hcs|].
  rewrite (P cs Hcs) in H. now injection H as <-.
Qed.

Lemma parse_rawclips_file_on_any_input_witness :
  exists cs : list Clip.t,
    clips_of
      (windows [ "Book" ++ LF; "- Your Highlight on page 46" ++ LF; LF;
                 "text" ++ LF; "==========" ++ LF;
                 "Book" ++ LF; "Highlight on page 47" ++ LF ]%string) cs
    /\ Extraction.mk
         [ Clip.mk "highlight" "Book" [46%Z] [] None None "text" ] [] [] []
       = Extraction.mk (filter (has_type "highlight") cs)
           (filter (has_type "note") cs)
           (filter (has_type "bookmark") cs)
           (unparsed_of 0
              (windows [ "Book" ++ LF; "- Your Highlight on page 46" ++ LF;
                         LF; "text" ++ LF; "==========" ++ LF;
                         "Book" ++ LF; "Highlight on page 47" ++ LF ]%string)).
Proof.
  apply (proj1 (parse_rawclips_file_on_any_input _)).
  vm_compute. reflexivity.
Defined.

(** ** Ranges, as extracted and as shown *)

(** X10.  Whatever the metadata line, page and location extraction
    either raise [ValueError] or give no number, one, or two, none
    negative and each of at most [max_str_digits] digits, the ones [str]
    converts; the pretty-printer shows such a value as [no data], as the
    number, or as the two numbers joined by a hyphen: its comma-joined
    case is never reached from an extracted value. *)
Theorem extracted_ranges_are_shown_plainly (line : string) :
  let limit : Z := (10 ^ max_str_digits)%Z in
  let shown (l : list Z) : Prop :=
    (l = [] /\ pages_and_loc_to_str (Some l) = "no data")
    \/ (exists a : Z,
           (0 <= a < limit)%Z /\ l = [a]
           /\ pages_and_loc_to_str (Some l) = str_int a)
    \/ (exists a b : Z,
           (0 <= a < limit)%Z /\ (0 <= b < limit)%Z /\ l = [a; b]
           /\ pages_and_loc_to_str (Some l)
              = (str_int a ++ "-" ++ str_int b)%string) in
  let extracted (r : result (list Z)) : Prop :=
    r = Raise ValueError \/ exists l, r = Ok l /\ shown l in
  extracted (parse_page_info line) /\ extracted (parse_location_info line).
Proof.
  assert (S : forall l, range_like l -> within_limit l ->
              (l = [] /\ pages_and_loc_to_str (Some l) = "no data")
              \/ (exists a : Z,
                     (0 <= a < 10 ^ max_str_digits)%Z /\ l = [a]
                     /\ pages_and_loc_to_str (Some l) = str_int a)
              \/ (exists a b : Z,
                     (0 <= a < 10 ^ max_str_digits)%Z
                     /\ (0 <= b < 10 ^ max_str_digits)%Z /\ l = [a; b]
                     /\ pages_and_loc_to_str (Some l)
                        = (str_int a ++ "-" ++ str_int b)%string)).
  { intros l [Hl Hn] Hw.
    destruct l as [|a [|b [|c l]]]; try (simpl in Hl; lia).
    - left. auto.
    - right; left. exists a. inversion Hn; subst. inversion Hw; subst. auto.
    - right; right. exists a, b.
      inversion Hn as [|? ? Ha Hn']; subst. inversion Hn'; subst.
      inversion Hw as [|? ? Wa Hw']; subst. inversion Hw'; subst. auto 10. }
  cbv zeta. split.
  - destruct (FieldFacts.parse_page_info_cases line)
      as [E|(l & E & R & W)]; [now left|].
    right. exists l. split; [exact E|now apply S].
  - destruct (FieldFacts.parse_location_info_cases line)
      as [E|(l & E & R & W)]; [now left|].
    right. exists l. split; [exact E|now apply S].
Qed.
